(** * stdpopsim: the Bos Taurus catalog entry and the command line front end

    A shallow embedding of [BosTau.py] (the catalog module for cattle) and of
    the simulation path of [stdpopsim/cli.py], together with the checked
    properties of the catalog and of the command line runner.

    Python [int] is embedded as [Z], Python [float] as a binary64
    [PrimFloat.float], [str] as [string], [None]-able values as [option].
    The length multiplier of a contig is the float the command line parses,
    and the contig length is its binary64 product with the chromosome's
    length. Exceptions are values of [Error] carried by [Result]; what a run of the command line does (log
    records, the call of the engine, the files it writes) is the trace of
    events of [Run].

    The library modules of stdpopsim (citations, genomes, models, species)
    are not among the sources; the parts of them the catalog and the command
    line call are modelled from the spec and marked so. *)

From Stdlib Require Import ZArith List String Ascii Sorted Lia.
From Stdlib Require Import PrimFloat SpecFloat FloatOps.
From stdpp Require Import gmap strings list pretty.

Set Warnings "-inexact-float,-register-all".

Local Open Scope string_scope.
Local Open Scope list_scope.
Local Open Scope Z_scope.

(** ** Exceptions *)

Inductive Error : Type :=
| DuplicateIdError (species_id : string)
| UnknownSpeciesError (species_id : string)
| UnknownModelError (model_id : string)
| UnknownGeneticMapError (map_id : string)
| UnknownChromosomeError (chrom_id : option string)
| InvalidPopulationIndexError
| MigrationMatrixShapeError
| TooManySamplePopulationsError
| ValueError (msg : string)
| IndexError
| CacheError (msg : string)
| EngineError (msg : string)
| ArgparseError (msg : string)
| SystemExit (msg : string).

Inductive Result (A : Type) : Type :=
| Ok (a : A)
| Raise (e : Error).
Arguments Ok {A} a.
Arguments Raise {A} e.

Definition rbind {A B : Type} (r : Result A) (k : A -> Result B) : Result B :=
  match r with
  | Ok a => k a
  | Raise e => Raise e
  end.

Declare Scope result_scope.
Delimit Scope result_scope with result.
Notation "x <- r ;; k" := (rbind r (fun x => k))
  (at level 100, r at next level, right associativity) : result_scope.
Local Open Scope result_scope.

Fixpoint mapM {A B : Type} (f : A -> Result B) (l : list A) : Result (list B) :=
  match l with
  | [] => Ok []
  | a :: l' =>
      b <- f a;;
      bs <- mapM f l';;
      Ok (b :: bs)
  end.

(** ** The Python string methods the catalog uses *)

Module Py.

Definition is_linebreak (c : ascii) : bool :=
  let n := nat_of_ascii c in
  (n =? 10)%nat || (n =? 13)%nat || (n =? 11)%nat || (n =? 12)%nat.

Definition is_whitespace (c : ascii) : bool :=
  let n := nat_of_ascii c in
  (n =? 32)%nat || ((9 <=? n)%nat && (n <=? 13)%nat).

Definition snoc (s : string) (c : ascii) : string := (s ++ String c "")%string.

(** [str.splitlines()]: a final line break does not open an empty line.
    (A carriage return followed by a line feed counts once in Python; the
    catalog data only has line feeds.) *)
Fixpoint splitlines_from (line : string) (s : string) : list string :=
  match s with
  | EmptyString => if String.eqb line "" then [] else [line]
  | String c rest =>
      if is_linebreak c then line :: splitlines_from "" rest
      else splitlines_from (snoc line c) rest
  end.
Definition splitlines (s : string) : list string := splitlines_from "" s.

(** [str.split()] with no separator: runs of whitespace separate the
    fields and no field is empty. *)
Fixpoint split_from (word : string) (s : string) : list string :=
  match s with
  | EmptyString => if String.eqb word "" then [] else [word]
  | String c rest =>
      if is_whitespace c then
        (if String.eqb word "" then split_from "" rest
         else word :: split_from "" rest)
      else split_from (snoc word c) rest
  end.
Definition split (s : string) : list string := split_from "" s.

Definition digit (c : ascii) : option Z :=
  let n := nat_of_ascii c in
  if (48 <=? n)%nat && (n <=? 57)%nat then Some (Z.of_nat n - 48) else None.

Fixpoint digits (acc : Z) (s : string) : option Z :=
  match s with
  | EmptyString => Some acc
  | String c rest =>
      match digit c with
      | Some d => digits (10 * acc + d) rest
      | None => None
      end
  end.

(** [int(s)] for a decimal literal with an optional sign. *)
Definition int (s : string) : Result Z :=
  let unsigned (t : string) : Result Z :=
    match t with
    | EmptyString => Raise (ValueError "invalid literal for int()")
    | _ => match digits 0 t with
           | Some n => Ok n
           | None => Raise (ValueError "invalid literal for int()")
           end
    end in
  match s with
  | String "-" t => n <- unsigned t;; Ok (- n)
  | String "+" t => unsigned t
  | _ => unsigned s
  end.

(** [a, b = l]: unpacking into two names needs exactly two values. *)
Definition unpack2 {A : Type} (l : list A) : Result (A * A) :=
  match l with
  | [a; b] => Ok (a, b)
  | _ :: _ :: _ :: _ => Raise (ValueError "too many values to unpack")
  | _ => Raise (ValueError "not enough values to unpack")
  end.

End Py.

(** ** Citations *)

(** Modelled from the spec: the reasons a source is cited for
    ([stdpopsim.CiteReason]; stdpopsim/citations.py is not among the sources):
    assembly, generation time, population size, demographic model. *)
Inductive CiteReason : Type := ASSEMBLY | GEN_TIME | POP_SIZE | DEM_MODEL.

#[global] Instance CiteReason_eq_dec : EqDecision CiteReason.
Proof. solve_decision. Defined.

Definition CiteReason_code (r : CiteReason) : nat :=
  match r with ASSEMBLY => 0 | GEN_TIME => 1 | POP_SIZE => 2 | DEM_MODEL => 3 end%nat.

Definition CiteReason_of_code (n : nat) : option CiteReason :=
  match n with
  | 0 => Some ASSEMBLY | 1 => Some GEN_TIME | 2 => Some POP_SIZE
  | 3 => Some DEM_MODEL | _ => None
  end%nat.

#[global] Instance CiteReason_countable : Countable CiteReason.
Proof.
  apply (inj_countable CiteReason_code CiteReason_of_code).
  intros []; reflexivity.
Defined.

(** Modelled from the spec: a Citation is {doi, year, author, set of reasons};
    a citation may have no doi. *)
Record Citation : Type := mkCitation {
  doi : option string;
  year : string;
  author : string;
  reasons : gset CiteReason
}.

(** ** Genomes, populations, models and species (the data model of the spec) *)

Record Chromosome : Type := mkChromosome {
  chr_id : string;
  chr_length : Z;
  mutation_rate : float;
  recombination_rate : float
}.

Record Genome : Type := mkGenome {
  chromosomes : list Chromosome;
  assembly_citations : list Citation;
  mutation_rate_citations : list Citation;
  recombination_rate_citations : list Citation
}.

(** Modelled from the spec: [stdpopsim.Genome(chromosomes, assembly_citations)];
    the citation lists that are not given are empty. *)
Definition Genome_new (chroms : list Chromosome) (assembly : list Citation) : Genome :=
  {| chromosomes := chroms; assembly_citations := assembly;
     mutation_rate_citations := []; recombination_rate_citations := [] |}.

Record Population : Type := mkPopulation {
  pop_id : string;
  pop_description : string;
  allow_samples : bool;
  sampling_time : Z
}.

(** Modelled from the spec: [stdpopsim.Population(id, description)]; the
    sampling time defaults to 0 and such a population can be sampled. *)
Definition Population_new (pid descr : string) : Population :=
  {| pop_id := pid; pop_description := descr;
     allow_samples := true; sampling_time := 0 |}.

(** [msprime.PopulationConfiguration(initial_size, growth_rate, metadata)];
    the metadata is the population's [asdict()], kept as the record. *)
Record PopulationConfiguration : Type := mkPopulationConfiguration {
  initial_size : option Z;
  growth_rate : float;
  metadata : option Population
}.

(** [msprime.PopulationParametersChange(time, initial_size, growth_rate,
    population_id)]; what is not given is [None]. *)
Record PopulationParametersChange : Type := mkPopulationParametersChange {
  time : Z;
  new_initial_size : option Z;
  new_growth_rate : option float;
  population_id : option Z
}.

Inductive DemographicModel : Type := mkDemographicModel {
  dm_id : string;
  dm_description : string;
  dm_long_description : string;
  populations : list Population;
  dm_citations : list Citation;
  dm_generation_time : Z;
  population_configurations : list PopulationConfiguration;
  migration_matrix : option (list (list float));
  demographic_events : list PopulationParametersChange;
  qc_model : option DemographicModel
}.

(** [msprime.Sample(population, time)]. *)
Record Sample : Type := mkSample {
  population : Z;
  sample_time : Z
}.

(** The rates along a contig: the chromosome's uniform rate, or the data a
    genetic map holds for the chromosome (its mean rate and its table of
    positions and rates). *)
Inductive RateProfile : Type :=
| UniformRate (rate : float)
| MapRates (mean_rate : float) (table : list (Z * float)).

Record RecombinationMap : Type := mkRecombinationMap {
  get_length : float;
  rate_profile : RateProfile
}.

Definition mean_recombination_rate (rm : RecombinationMap) : float :=
  match rate_profile rm with
  | UniformRate r => r
  | MapRates mean _ => mean
  end.

(** A genetic map; [chromosome_rates] stands for the externally cached data,
    whose download may fail. *)
Record GeneticMap : Type := mkGeneticMap {
  gm_id : string;
  gm_citations : list Citation;
  gm_long_description : string;
  chromosome_rates : string -> Result RateProfile
}.

Record Contig : Type := mkContig {
  recombination_map : RecombinationMap;
  contig_mutation_rate : float;
  genetic_map : option GeneticMap
}.

Record Species : Type := mkSpecies {
  sp_id : string;
  sp_name : string;
  common_name : string;
  genome : Genome;
  generation_time : Z;
  generation_time_citations : list Citation;
  population_size : Z;
  population_size_citations : list Citation;
  demographic_models : list DemographicModel;
  genetic_maps : list GeneticMap
}.

(** ** The demographic model builder *)

Definition valid_index (n : nat) (idx : Z) : bool :=
  (0 <=? idx) && (idx <? Z.of_nat n).

(** The i-th initial configuration configures population i. *)
Definition configuration_indices (cfgs : list PopulationConfiguration) : list Z :=
  map Z.of_nat (seq 0 (length cfgs)).

Definition event_index_ok (n : nat) (ev : PopulationParametersChange) : bool :=
  match population_id ev with
  | Some idx => valid_index n idx
  | None => true
  end.

Definition is_square (n : nat) (mm : list (list float)) : bool :=
  (length mm =? n)%nat && forallb (fun row => (length row =? n)%nat) mm.

Definition zero_diagonal (mm : list (list float)) : list (list float) :=
  imap (fun i row => <[i := 0%float]> row) mm.

(** Modelled from the spec: the constructor [stdpopsim.DemographicModel(...)]
    (stdpopsim/models.py is not among the sources) and its validation at
    construction: the population indices of the initial configurations and of
    the events exist, event times are not negative, a migration matrix is
    square of the dimension of the population list and loses its diagonal.
    A new model has no [qc_model]. The events are kept in the given order. *)
Definition DemographicModel_new (mid descr long_descr : string)
    (pops : list Population) (cits : list Citation) (gen_time : Z)
    (cfgs : list PopulationConfiguration)
    (mm : option (list (list float)))
    (events : list PopulationParametersChange) : Result DemographicModel :=
  let n := length pops in
  if negb (forallb (valid_index n) (configuration_indices cfgs)) then
    Raise InvalidPopulationIndexError
  else if negb (forallb (event_index_ok n) events) then
    Raise InvalidPopulationIndexError
  else if existsb (fun ev => time ev <? 0) events then
    Raise (ValueError "negative event time")
  else
    let build mm' :=
      {| dm_id := mid; dm_description := descr; dm_long_description := long_descr;
         populations := pops; dm_citations := cits; dm_generation_time := gen_time;
         population_configurations := cfgs; migration_matrix := mm';
         demographic_events := events; qc_model := None |} in
    match mm with
    | None => Ok (build None)
    | Some m =>
        if is_square n m then Ok (build (Some (zero_diagonal m)))
        else Raise MigrationMatrixShapeError
    end.

(** Modelled from the spec: the populations with [allow_samples = true], in
    model order, and their number. *)
Definition sampling_populations (m : DemographicModel) : list Population :=
  List.filter allow_samples (populations m).

Definition num_sampling_populations (m : DemographicModel) : nat :=
  length (sampling_populations m).

(** The samples of the populations [pops], numbered from [i], one count each. *)
Fixpoint samples_from (i : nat) (pops : list Population) (counts : list Z)
    : list Sample :=
  match pops, counts with
  | p :: pops', n :: counts' =>
      repeat {| population := Z.of_nat i; sample_time := sampling_time p |}
             (Z.to_nat n)
      ++ samples_from (S i) pops' counts'
  | _, _ => []
  end.

(** Modelled from the spec: [DemographicModel.get_samples] on a sequence of
    counts. The i-th count goes to the i-th population that allows samples;
    a sample carries that index and the population's sampling time; more
    counts than such populations is an error, and the counts that are left
    out are 0. The spec takes the counts to be non-negative; a negative
    count gives no sample. *)
Definition get_samples (m : DemographicModel) (counts : list Z)
    : Result (list Sample) :=
  let pops := sampling_populations m in
  if (length pops <? length counts)%nat then Raise TooManySamplePopulationsError
  else
    let padded := counts ++ repeat 0 (length pops - length counts) in
    Ok (samples_from 0 pops padded).

(** The number of samples of the population of index [i]. *)
Definition count_population (i : Z) (sampled : list Sample) : nat :=
  length (List.filter (fun s => population s =? i) sampled).

(** Modelled from the spec: the piecewise-constant convenience model
    [stdpopsim.PiecewiseConstantSize(N0)]: one population of constant size
    [N0] and growth rate 0, no events and no migration matrix. The spec does
    not give its identifying strings nor its generation time before the
    caller sets it. *)
Definition PiecewiseConstantSize (N0 : Z) : DemographicModel :=
  let pop0 := Population_new "pop_0" "Generic piecewise constant population" in
  {| dm_id := "PiecewiseConstant";
     dm_description := "Piecewise constant size population model.";
     dm_long_description := "";
     populations := [pop0];
     dm_citations := [];
     dm_generation_time := 1;
     population_configurations :=
       [ {| initial_size := Some N0; growth_rate := 0%float;
            metadata := Some pop0 |} ];
     migration_matrix := None;
     demographic_events := [];
     qc_model := None |}.

(** ** The citation registry *)

Definition same_doi (a c : Citation) : bool :=
  match doi a, doi c with
  | Some x, Some y => String.eqb x y
  | _, _ => false
  end.

Definition add_reasons (a c : Citation) : Citation :=
  {| doi := doi a; year := year a; author := author a;
     reasons := reasons a ∪ reasons c |}.

(** The citation [c] joins the group of its doi when there is one already and
    opens a new group at the end otherwise. *)
Fixpoint merge_into (acc : list Citation) (c : Citation) : list Citation :=
  match acc with
  | [] => [c]
  | a :: acc' =>
      if same_doi a c then add_reasons a c :: acc'
      else a :: merge_into acc' c
  end.

(** Modelled from the spec: [Citation.merge(citations)] groups by doi
    (a citation without doi is a group of its own), unions the reasons of a
    group in its first-seen citation, and keeps the first-seen order. *)
Definition merge (citations : list Citation) : list Citation :=
  fold_left merge_into citations [].

(** *** What the merge is expected to give *)

Definition has_doi (d : string) (c : Citation) : bool :=
  bool_decide (doi c = Some d).

Definition no_doi (c : Citation) : bool := bool_decide (doi c = None).

(** A doi that was seen before; a missing doi never counts as seen. *)
Definition is_repeat (seen : list (option string)) (x : option string) : bool :=
  match x with
  | Some d => bool_decide (Some d ∈ seen)
  | None => false
  end.

(** The dois in first-seen order: each doi once, at its first position, and
    every missing doi at its own position. *)
Fixpoint first_seen_from (seen ds : list (option string)) : list (option string) :=
  match ds with
  | [] => []
  | x :: rest =>
      if is_repeat seen x then first_seen_from seen rest
      else x :: first_seen_from (seen ++ [x]) rest
  end.

Definition first_seen (ds : list (option string)) : list (option string) :=
  first_seen_from [] ds.

(** The citation that stands for the group of the doi [d]: the first one of
    the group, with the union of the reasons of the group. *)
Definition group_representative (d : string) (citations : list Citation)
    : option Citation :=
  match List.filter (has_doi d) citations with
  | [] => None
  | first :: others =>
      Some {| doi := doi first; year := year first; author := author first;
              reasons := ⋃ (map reasons (first :: others)) |}
  end.

(** What [merge_into] does to the group of one doi. *)
Definition absorb (group : list Citation) (c : Citation) : list Citation :=
  match group with
  | [] => [c]
  | a :: rest => add_reasons a c :: rest
  end.

(** ** The species registry *)

(** Modelled from the spec: the process-wide registry, in registration order. *)
Definition Registry : Type := list Species.

Definition has_id (sid : string) (sp : Species) : bool := String.eqb (sp_id sp) sid.

Definition register_species (sp : Species) (reg : Registry) : Result Registry :=
  if existsb (has_id (sp_id sp)) reg then Raise (DuplicateIdError (sp_id sp))
  else Ok (reg ++ [sp]).

Definition get_species (sid : string) (reg : Registry) : Result Species :=
  match find (has_id sid) reg with
  | Some sp => Ok sp
  | None => Raise (UnknownSpeciesError sid)
  end.

Definition all_species (reg : Registry) : list Species := reg.

(** Modelled from the spec: models are appended to their species. *)
Definition add_demographic_model (m : DemographicModel) (sp : Species) : Species :=
  {| sp_id := sp_id sp; sp_name := sp_name sp; common_name := common_name sp;
     genome := genome sp; generation_time := generation_time sp;
     generation_time_citations := generation_time_citations sp;
     population_size := population_size sp;
     population_size_citations := population_size_citations sp;
     demographic_models := demographic_models sp ++ [m];
     genetic_maps := genetic_maps sp |}.

(** A registered species is one shared object: a method called on it after
    the registration changes what the registry holds. *)
Definition update_registered (sid : string) (f : Species -> Species)
    (reg : Registry) : Registry :=
  map (fun sp => if has_id sid sp then f sp else sp) reg.

Definition get_demographic_model (sp : Species) (mid : string)
    : Result DemographicModel :=
  match find (fun m => String.eqb (dm_id m) mid) (demographic_models sp) with
  | Some m => Ok m
  | None => Raise (UnknownModelError mid)
  end.

Definition get_genetic_map (sp : Species) (gid : string) : Result GeneticMap :=
  match find (fun g => String.eqb (gm_id g) gid) (genetic_maps sp) with
  | Some g => Ok g
  | None => Raise (UnknownGeneticMapError gid)
  end.

(** ** The contig resolver *)

(** Modelled from the spec: the chromosome of a contig; without an id it is
    the chromosome of a genome that has exactly one, and an id is required
    otherwise. *)
Definition get_chromosome (g : Genome) (chromosome : option string)
    : Result Chromosome :=
  match chromosome with
  | Some cid =>
      match find (fun c => String.eqb (chr_id c) cid) (chromosomes g) with
      | Some c => Ok c
      | None => Raise (UnknownChromosomeError (Some cid))
      end
  | None =>
      match chromosomes g with
      | [c] => Ok c
      | _ => Raise (UnknownChromosomeError None)
      end
  end.

Definition uniform_map (len : float) (rate : float) : RecombinationMap :=
  {| get_length := len; rate_profile := UniformRate rate |}.

(** The float Python makes of an int that meets a float in a product: the
    nearest binary64 number, ties to even. (Python raises OverflowError for
    an int beyond the range of the floats; here it becomes infinity.) *)
Definition float_of_int (z : Z) : float :=
  SF2Prim (binary_normalize prec emax z 0 false).

(** Modelled from the spec: [Species.get_contig(chromosome, genetic_map,
    length_multiplier)] (stdpopsim/species.py is not among the sources). The
    contig has the chromosome's length times the multiplier and the
    chromosome's mutation rate; its recombination rates are the chromosome's
    uniform rate or, with a genetic map, the map's data for the chromosome.
    The multiplier is the binary64 float the command line passes (cli.py,
    type=float), so the length is the binary64 product of the chromosome's
    length and the multiplier. *)
Definition get_contig (sp : Species) (chromosome : option string)
    (gmap : option string) (length_multiplier : float) : Result Contig :=
  chrom <- get_chromosome (genome sp) chromosome;;
  let len := (float_of_int (chr_length chrom) * length_multiplier)%float in
  match gmap with
  | None =>
      Ok {| recombination_map := uniform_map len (recombination_rate chrom);
            contig_mutation_rate := mutation_rate chrom;
            genetic_map := None |}
  | Some gid =>
      gm <- get_genetic_map sp gid;;
      profile <- chromosome_rates gm (chr_id chrom);;
      Ok {| recombination_map := {| get_length := len; rate_profile := profile |};
            contig_mutation_rate := mutation_rate chrom;
            genetic_map := Some gm |}
  end.

(** ** BosTau.py: the catalog definitions for Bos Taurus *)

Module BosTau.

Definition _chromosome_data : string :=
"chr1    158534110
chr2    136231102
chr3    121005158
chr4    120000601
chr5    120089316
chr6    117806340
chr7    110682743
chr8    113319770
chr9    105454467
chr10   103308737
chr11   106982474
chr12   87216183
chr13   83472345
chr14   82403003
chr15   85007780
chr16   81013979
chr17   73167244
chr18   65820629
chr19   63449741
chr20   71974595
chr21   69862954
chr22   60773035
chr23   52498615
chr24   62317253
chr25   42350435
chr26   51992305
chr27   45612108
chr28   45940150
chr29   51098607
chrX    139009144
".

(** The loop over the lines of the data: name and length are the first two
    fields of a line. *)
Definition _chromosomes : Result (list Chromosome) :=
  mapM (fun line =>
          fields <- Py.unpack2 (take 2 (Py.split line));;
          len <- Py.int (snd fields);;
          Ok {| chr_id := fst fields; chr_length := len;
                mutation_rate := 1e-8%float;
                recombination_rate := 1e-8%float |})
       (Py.splitlines _chromosome_data).

Definition _assembly_citation : Citation :=
  {| doi := Some "https://doi.org/10.1093/gigascience/giaa021";
     year := "2020"; author := "Rosen et al.";
     reasons := {[ ASSEMBLY ]} |}.

Definition _genome (chroms : list Chromosome) : Genome :=
  Genome_new chroms [_assembly_citation].

Definition _gen_time_citation : Citation :=
  {| doi := Some "https://doi.org/10.1093/molbev/mst125";
     year := "2013"; author := "MacLeod et al.";
     reasons := {[ GEN_TIME ]} |}.

Definition _pop_size_citation : Citation :=
  {| doi := Some "https://doi.org/10.1093/molbev/mst125";
     year := "2013"; author := "MacLeod et al.";
     reasons := {[ POP_SIZE ]} |}.

(** A new species has no demographic model and no genetic map yet. *)
Definition _species (chroms : list Chromosome) : Species :=
  {| sp_id := "BosTau"; sp_name := "Bos Taurus"; common_name := "Cattle";
     genome := _genome chroms;
     generation_time := 5;
     generation_time_citations := [_gen_time_citation];
     population_size := 62000;
     population_size_citations := [_pop_size_citation];
     demographic_models := []; genetic_maps := [] |}.

(** The call [msprime.PopulationParametersChange(time=..., initial_size=...,
    growth_rate=..., population_id=...)]. *)
Definition msprime_PopulationParametersChange (time : Z)
    (initial_size : option Z) (growth_rate : option float)
    (population_id : option Z) : PopulationParametersChange :=
  {| time := time; new_initial_size := initial_size;
     new_growth_rate := growth_rate; population_id := population_id |}.

Definition _inferred_1_M_13 : Result DemographicModel :=
  let id := "IonaInferredDemography" in
  let description := "Iona MacLeod's Inferred Demographic Model for Bos Taurus" in
  let long_description := "
    The Runs of Homozygosity-based infer of Demography from MacLeod et al. 2013.
    " in
  let populations := [ Population_new "FILL ME" "FILL ME" ] in
  let citations :=
    [ {| author := "MacLeod et al."; year := "2013";
         doi := Some "https://doi.org/10.1093/molbev/mst125";
         reasons := {[ DEM_MODEL ]} |} ] in
  let generation_time := 5 in
  DemographicModel_new id description long_description populations citations
    generation_time
    [ {| initial_size := Some 90; growth_rate := 0.0166%float;
         metadata := populations !! 0%nat |} ]
    None
    [ msprime_PopulationParametersChange 1 (Some 90)
        (Some (-0.095894024)%float) (Some 0);
      msprime_PopulationParametersChange 4 None
        (Some (-0.24465639)%float) (Some 0);
      msprime_PopulationParametersChange 7 None
        (Some (-0.0560787)%float) (Some 0);
      msprime_PopulationParametersChange 13 None
        (Some (-0.1749704)%float) (Some 0);
      msprime_PopulationParametersChange 19 None
        (Some (-0.0675775)%float) (Some 0);
      msprime_PopulationParametersChange 25 None
        (Some (-0.0022129)%float) (Some 0);
      msprime_PopulationParametersChange 155 None
        (Some (-0.0007438)%float) (Some 0);
      msprime_PopulationParametersChange 455 None
        (Some (-0.0016824)%float) (Some 0);
      msprime_PopulationParametersChange 655 None
        (Some (-0.0006301)%float) (Some 0);
      msprime_PopulationParametersChange 1755 None
        (Some (-0.0005945)%float) (Some 0);
      msprime_PopulationParametersChange 2355 None
        (Some (-0.0005306)%float) (Some 0);
      msprime_PopulationParametersChange 3355 None
        (Some (-0.0000434)%float) (Some 0);
      msprime_PopulationParametersChange 33155 None
        (Some (-0.0000)%float) (Some 0);
      msprime_PopulationParametersChange 933155 None
        (Some (-0.0)%float) (Some 0) ].

(** The module body: the species is registered, then the model is added to
    the registered species. *)
Definition load (reg : Registry) : Result Registry :=
  chroms <- _chromosomes;;
  let sp := _species chroms in
  reg' <- register_species sp reg;;
  m <- _inferred_1_M_13;;
  Ok (update_registered (sp_id sp) (add_demographic_model m) reg').

End BosTau.

(** ** stdpopsim/cli.py: the simulation path of the command line interface *)

(** The parsed command line of a species subcommand (the argparse
    namespace); [engine_options] holds the entries of the engine groups. *)
Record Args : Type := mkArgs {
  a_species : string;
  a_genetic_map : option string;
  a_chromosome : option string;
  bibtex_file : option string;
  dry_run : bool;
  length_multiplier : float;
  seed : option Z;
  a_demographic_model : option string;
  output : option string;
  samples : list Z;
  a_engine : string;
  engine_options : list (string * string)
}.

(** [kwargs = vars(args)] updated with the model, the contig and the
    samples: the namespace entries with these three replaced. *)
Record Kwargs : Type := mkKwargs {
  kw_args : Args;
  kw_demographic_model : DemographicModel;
  kw_contig : Contig;
  kw_samples : list Sample
}.

(** What [write_simulation_summary] logs: one row per sampling population
    (name, number of samples, sampling time) and the contig description. *)
Record Summary : Type := mkSummary {
  sum_engine : string;
  sum_engine_version : string;
  sum_model_id : string;
  sum_model_description : string;
  sum_seed : option Z;
  sum_rows : list (string * Z * Z);
  sum_contig_length : float;
  sum_mean_recombination_rate : float;
  sum_mutation_rate : float;
  sum_genetic_map : string
}.

(** What the user wrote after the name of the species subcommand: the
    options that were given, and the positional sample counts. *)
Record CommandLine : Type := mkCommandLine {
  opt_engine : option string;
  opt_engine_options : list (string * string);
  opt_bibtex_file : option string;
  opt_dry_run : bool;
  opt_genetic_map : option string;
  opt_chromosome : option string;
  opt_length_multiplier : option float;
  opt_seed : option Z;
  opt_demographic_model : option string;
  opt_output : option string;
  arg_samples : list Z
}.

Section CLI.

(** The result artifact of an engine, [stdpopsim]'s own citation and the
    registered engines are given from outside. *)
Variable TreeSequence : Type.
Variable _stdpopsim_citation : Citation.
(** [sys.argv[0]], the name the program was called by. *)
Variable argv0 : string.

Record Engine : Type := mkEngine {
  engine_id : string;
  engine_citations : list Citation;
  get_version : string;
  simulate : Kwargs -> Result (option TreeSequence)
}.

Variable engines : list Engine.
Variable default_engine : string.

Definition get_engine (eid : string) : Result Engine :=
  match find (fun e => String.eqb (engine_id e) eid) engines with
  | Some e => Ok e
  | None => Raise (ValueError "Unknown engine")
  end.

(** *** Effects: what a run does, in order *)

Inductive Event : Type :=
| Log_info_running (model_id species_id : string) (contig : Contig)
                   (n_samples : nat) (eng : string)
| Log_summary (s : Summary)
| Warn_not_QCed (model_id : string)
| Engine_simulate (e : Engine) (kw : Kwargs)
| Summarise_usage
| Write_output (ts : TreeSequence) (out : option string)
| Write_citations (cs : list Citation)
| Write_bibtex (cs : list Citation) (file : string).

Definition Run (A : Type) : Type := (list Event * Result A)%type.

Definition ret {A : Type} (a : A) : Run A := ([], Ok a).

Definition bind {A B : Type} (m : Run A) (k : A -> Run B) : Run B :=
  match m with
  | (t, Ok a) => let '(t', r) := k a in (t ++ t', r)
  | (t, Raise e) => (t, Raise e)
  end.

Definition emit (ev : Event) : Run unit := ([ev], Ok tt).
Definition lift {A : Type} (r : Result A) : Run A := ([], r).
Definition trace {A : Type} (m : Run A) : list Event := fst m.
Definition outcome {A : Type} (m : Run A) : Result A := snd m.

Notation "x <~ m ;; k" := (bind m (fun x => k))
  (at level 100, m at next level, right associativity).
Notation "m ;;; k" := (bind m (fun _ => k))
  (at level 100, right associativity).

(** [exit(message)]: [sys.exit] with the message after the program name,
    that is the exception [SystemExit]. *)
Definition exit {A : Type} (message : string) : Run A :=
  lift (Raise (SystemExit (argv0 ++ ": " ++ message)%string)).

(** [get_model_wrapper]: a failed lookup ends the program. *)
Definition get_model_wrapper (species : Species) (model_id : string)
    : Run DemographicModel :=
  match get_demographic_model species model_id with
  | Ok m => ret m
  | Raise (UnknownModelError mid) => exit ("unknown model " ++ mid)%string
  | Raise e => lift (Raise e)
  end.

Definition get_citations (engine : Engine) (model : DemographicModel)
    (contig : Contig) (species : Species) : list Citation :=
  let citations := [_stdpopsim_citation] in
  let citations := citations ++ engine_citations engine in
  let citations := citations ++ assembly_citations (genome species) in
  let citations := citations ++ mutation_rate_citations (genome species) in
  let citations := citations ++ recombination_rate_citations (genome species) in
  let citations :=
    match genetic_map contig with
    | Some gm => citations ++ gm_citations gm
    | None => citations
    end in
  let citations := citations ++ dm_citations model in
  merge citations.

(** [write_output(ts, args)]: the tree sequence, with a provenance row
    added, is dumped to [args.output] or, without one, to standard output;
    the function logs "Updating provenance" and, with an output file,
    "Writing to ..." as debug records. The event stands for the call, with
    its records and its dump; the contents of the files and the errors of
    the file system are outside the model, in which the call returns. *)
Definition write_output (ts : TreeSequence) (args : Args) : Run unit :=
  emit (Write_output ts (output args)).

(** [write_bibtex(engine, model, contig, species, bibtex_file)]: the bibtex
    entry of each of the citations is written to the file of [-b] (the
    parser has opened it for writing; here a file is its name). The event
    stands for the call; fetching the entries and the errors of the file
    system are outside the model, in which the call returns. *)

Definition write_bibtex (engine : Engine) (model : DemographicModel)
    (contig : Contig) (species : Species) (file : string) : Run unit :=
  emit (Write_bibtex (get_citations engine model contig species) file).

Definition write_citations (engine : Engine) (model : DemographicModel)
    (contig : Contig) (species : Species) : Run unit :=
  emit (Write_citations (get_citations engine model contig species)).

Definition summarise_usage : Run unit := emit Summarise_usage.

(** [l[i]] for a Python list of length [n]: negative indices count from
    the end, anything else out of range raises [IndexError]. *)
Definition py_index (n : nat) (i : Z) : Result nat :=
  if (0 <=? i) && (i <? Z.of_nat n) then Ok (Z.to_nat i)
  else if (- Z.of_nat n <=? i) && (i <? 0) then Ok (Z.to_nat (Z.of_nat n + i))
  else Raise IndexError.

Definition getitem {A : Type} (l : list A) (i : Z) : Result A :=
  k <- py_index (length l) i;;
  match l !! k with
  | Some a => Ok a
  | None => Raise IndexError
  end.

(** [sample_counts[i] += 1]. *)
Definition increment (sample_counts : list Z) (i : Z) : Result (list Z) :=
  k <- py_index (length sample_counts) i;;
  c <- getitem sample_counts i;;
  Ok (<[k := c + 1]> sample_counts).

Fixpoint tally (sample_counts : list Z) (samples : list Sample)
    : Result (list Z) :=
  match samples with
  | [] => Ok sample_counts
  | s :: rest =>
      sample_counts' <- increment sample_counts (population s);;
      tally sample_counts' rest
  end.

Definition summary_rows (model : DemographicModel) (samples : list Sample)
    : Result (list (string * Z * Z)) :=
  sample_counts <- tally (repeat 0 (num_sampling_populations model)) samples;;
  mapM (fun p : nat =>
          pop <- getitem (populations model) (Z.of_nat p);;
          c <- getitem sample_counts (Z.of_nat p);;
          Ok (pop_id pop, c, sampling_time pop))
       (seq 0 (num_sampling_populations model)).

Definition write_simulation_summary (engine : Engine)
    (model : DemographicModel) (contig : Contig) (samples : list Sample)
    (seed : option Z) : Run unit :=
  rows <~ lift (summary_rows model samples);;
  let gmap := match genetic_map contig with
              | None => "None"
              | Some gm => gm_id gm
              end in
  emit (Log_summary
          {| sum_engine := engine_id engine;
             sum_engine_version := get_version engine;
             sum_model_id := dm_id model;
             sum_model_description := dm_description model;
             sum_seed := seed;
             sum_rows := rows;
             sum_contig_length := get_length (recombination_map contig);
             sum_mean_recombination_rate :=
               mean_recombination_rate (recombination_map contig);
             sum_mutation_rate := contig_mutation_rate contig;
             sum_genetic_map := gmap |}).

Definition set_generation_time (g : Z) (m : DemographicModel) : DemographicModel :=
  {| dm_id := dm_id m; dm_description := dm_description m;
     dm_long_description := dm_long_description m;
     populations := populations m; dm_citations := dm_citations m;
     dm_generation_time := g;
     population_configurations := population_configurations m;
     migration_matrix := migration_matrix m;
     demographic_events := demographic_events m; qc_model := qc_model m |}.

Definition extend_citations (cs : list Citation) (m : DemographicModel)
    : DemographicModel :=
  {| dm_id := dm_id m; dm_description := dm_description m;
     dm_long_description := dm_long_description m;
     populations := populations m; dm_citations := dm_citations m ++ cs;
     dm_generation_time := dm_generation_time m;
     population_configurations := population_configurations m;
     migration_matrix := migration_matrix m;
     demographic_events := demographic_events m; qc_model := qc_model m |}.

(** The first lines of [run_simulation]: the model of the run and whether
    it counts as quality-controlled. *)
Definition select_model (species : Species) (args : Args)
    : Run (DemographicModel * bool) :=
  match a_demographic_model args with
  | None =>
      let model := PiecewiseConstantSize (population_size species) in
      let model := set_generation_time (generation_time species) model in
      let model := extend_citations (population_size_citations species) model in
      let model := extend_citations (generation_time_citations species) model in
      ret (model, true)
  | Some mid =>
      model <~ get_model_wrapper species mid;;
      ret (model, bool_decide (qc_model model <> None))
  end.

Definition too_many_message (n : nat) : string :=
  ("Cannot sample from more than " ++ pretty n ++ " populations")%string.

(** [kwargs = vars(args)] followed by [kwargs.update(...)]. *)
Definition kwargs_of (args : Args) (model : DemographicModel) (contig : Contig)
    (sampled : list Sample) : Kwargs :=
  {| kw_args := args; kw_demographic_model := model;
     kw_contig := contig; kw_samples := sampled |}.

(** [run_simulation(args)], the runner of the subcommand of [species]. *)
Definition run_simulation (species : Species) (args : Args) : Run unit :=
  mq <~ select_model species args;;
  let model := fst mq in
  let qc_complete := snd mq in
  if (num_sampling_populations model <? length (samples args))%nat then
    exit (too_many_message (num_sampling_populations model))
  else
    samples <~ lift (get_samples model (samples args));;
    contig <~ lift (get_contig species (a_chromosome args)
                      (a_genetic_map args) (length_multiplier args));;
    engine <~ lift (get_engine (a_engine args));;
    emit (Log_info_running (dm_id model) (sp_id species) contig
            (length samples) (engine_id engine));;;
    let kwargs := kwargs_of args model contig samples in
    write_simulation_summary engine model contig samples (seed args);;;
    (if negb qc_complete then emit (Warn_not_QCed (dm_id model)) else ret tt);;;
    ts <~ ([Engine_simulate engine kwargs], simulate engine kwargs);;
    summarise_usage;;;
    match ts with
    | Some t => write_output t args
    | None => ret tt
    end;;;
    (if qc_complete then write_citations engine model contig species
     else ret tt);;;
    match bibtex_file args with
    | Some file => write_bibtex engine model contig species file
    | None => ret tt
    end.

(** *** The events of a run, for the statements about runs *)

(** The engine was called in the run. *)
Definition engine_invoked (tr : list Event) : Prop :=
  exists e kw, In (Engine_simulate e kw) tr.

(** What a run logs up to and including the call of the engine. *)
Definition opening_events (species : Species) (args : Args)
    (model : DemographicModel) (qc_complete : bool) (contig : Contig)
    (engine : Engine) (sampled : list Sample)
    (rows : list (string * Z * Z)) : list Event :=
  [ Log_info_running (dm_id model) (sp_id species) contig
      (length sampled) (engine_id engine);
    Log_summary
      {| sum_engine := engine_id engine;
         sum_engine_version := get_version engine;
         sum_model_id := dm_id model;
         sum_model_description := dm_description model;
         sum_seed := seed args;
         sum_rows := rows;
         sum_contig_length := get_length (recombination_map contig);
         sum_mean_recombination_rate :=
           mean_recombination_rate (recombination_map contig);
         sum_mutation_rate := contig_mutation_rate contig;
         sum_genetic_map := match genetic_map contig with
                            | None => "None"
                            | Some gm => gm_id gm
                            end |} ]
  ++ (if qc_complete then [] else [Warn_not_QCed (dm_id model)])
  ++ [ Engine_simulate engine (kwargs_of args model contig sampled) ].

(** What a run does after the engine has returned [ts]. *)
Definition closing_events (species : Species) (args : Args)
    (model : DemographicModel) (qc_complete : bool) (contig : Contig)
    (engine : Engine) (ts : option TreeSequence)
    : list Event :=
  [ Summarise_usage ]
  ++ match ts with
     | Some t => [ Write_output t (output args) ]
     | None => []
     end
  ++ (if qc_complete
      then [ Write_citations (get_citations engine model contig species) ]
      else [])
  ++ match bibtex_file args with
     | Some file =>
         [ Write_bibtex (get_citations engine model contig species) file ]
     | None => []
     end.

(** *** The argument parser of a species subcommand *)

(** An option with [choices]: any other value is a usage error. *)
Definition choice (choices : list string) (v : option string)
    : Result (option string) :=
  match v with
  | None => Ok None
  | Some x =>
      if existsb (String.eqb x) choices then Ok (Some x)
      else Raise (ArgparseError "invalid choice")
  end.

(** An option the parser was not given: using it is a usage error. *)
Definition unrecognized (v : option string) : Result (option string) :=
  match v with
  | None => Ok None
  | Some _ => Raise (ArgparseError "unrecognized arguments")
  end.

(** The parser [add_simulate_species_parser] builds for [species], applied
    to a command line. The defaults [genetic_map=None] and
    [chromosome=None] are set first; the options [-g] and [-c] exist only
    for a species with genetic maps, respectively with more than one
    chromosome, and [-c] then defaults to the first chromosome. *)
Definition add_simulate_species_parser (species : Species)
    (cmd : CommandLine) : Result Args :=
  engine <- choice (map engine_id engines) (opt_engine cmd);;
  gmap <-
    (let choices := map gm_id (genetic_maps species) in
     if (0 <? length (genetic_maps species))%nat
     then choice choices (opt_genetic_map cmd)
     else unrecognized (opt_genetic_map cmd));;
  chromosome <-
    (if (1 <? length (chromosomes (genome species)))%nat then
       let choices := map chr_id (chromosomes (genome species)) in
       c <- choice choices (opt_chromosome cmd);;
       match c with
       | Some _ => Ok c
       | None => Ok (head choices)
       end
     else unrecognized (opt_chromosome cmd));;
  model <- choice (map dm_id (demographic_models species))
             (opt_demographic_model cmd);;
  samples <-
    match arg_samples cmd with
    | [] => Raise (ArgparseError "the following arguments are required: samples")
    | l => Ok l
    end;;
  Ok {| a_species := sp_id species;
        a_genetic_map := gmap;
        a_chromosome := chromosome;
        bibtex_file := opt_bibtex_file cmd;
        dry_run := opt_dry_run cmd;
        length_multiplier := default 1%float (opt_length_multiplier cmd);
        seed := opt_seed cmd;
        a_demographic_model := model;
        output := opt_output cmd;
        samples := samples;
        a_engine := default default_engine engine;
        engine_options := opt_engine_options cmd |}.

(** [stdpopsim_main] on the subcommand of [species]: parse, then run. *)
Definition stdpopsim_main (species : Species) (cmd : CommandLine) : Run unit :=
  args <~ lift (add_simulate_species_parser species cmd);;
  run_simulation species args.

End CLI.

Arguments Engine : clear implicits.
Arguments Event : clear implicits.
Arguments engine_id {TreeSequence} e.
Arguments engine_citations {TreeSequence} e.
Arguments get_version {TreeSequence} e.
Arguments simulate {TreeSequence} e kw.
Arguments Log_info_running {TreeSequence}.
Arguments Log_summary {TreeSequence}.
Arguments Warn_not_QCed {TreeSequence}.
Arguments Engine_simulate {TreeSequence}.
Arguments Summarise_usage {TreeSequence}.
Arguments Write_output {TreeSequence}.
Arguments Write_citations {TreeSequence}.
Arguments Write_bibtex {TreeSequence}.
Arguments ret {TreeSequence A} a.
Arguments bind {TreeSequence A B} m k.
Arguments emit {TreeSequence} ev.
Arguments lift {TreeSequence A} r.
Arguments exit {TreeSequence} argv0 {A} message.
Arguments trace {TreeSequence A} m.
Arguments outcome {TreeSequence A} m.
Arguments engine_invoked {TreeSequence} tr.
Arguments opening_events {TreeSequence} species args model qc_complete contig engine sampled rows.
Arguments closing_events {TreeSequence} _stdpopsim_citation species args model qc_complete contig engine ts.
Arguments get_engine {TreeSequence} engines eid.
Arguments get_citations {TreeSequence} _stdpopsim_citation engine model contig species.
Arguments run_simulation {TreeSequence} _stdpopsim_citation argv0 engines species args.
Arguments add_simulate_species_parser {TreeSequence} engines default_engine species cmd.
Arguments stdpopsim_main {TreeSequence} _stdpopsim_citation argv0 engines default_engine species cmd.

(** ** Concrete inputs: runs for cattle, and a model with a ghost population *)

(** The registered species, with its model. *)
Definition cattle : Species :=
  match BosTau.load [] with
  | Ok [sp] => sp
  | _ => BosTau._species []
  end.

Definition own_citation : Citation :=
  {| doi := Some "https://doi.org/10.7554/eLife.54967"; year := "2020";
     author := "Adrion et al."; reasons := ∅ |}.

(** An engine that returns a tree sequence unless a dry run is asked for. *)
Definition msprime_engine : Engine unit :=
  {| engine_id := "msprime"; engine_citations := []; get_version := "0.7.4";
     simulate := fun kw => if dry_run (kw_args kw) then Ok None else Ok (Some tt) |}.

(** [stdpopsim BosTau -d IonaInferredDemography 10] and [stdpopsim BosTau 10],
    and the latter as a dry run. *)
Definition command (model : option string) (dry : bool) : CommandLine :=
  {| opt_engine := None; opt_engine_options := []; opt_bibtex_file := None;
     opt_dry_run := dry; opt_genetic_map := None; opt_chromosome := None;
     opt_length_multiplier := None; opt_seed := None;
     opt_demographic_model := model; opt_output := None;
     arg_samples := [10] |}.

Definition parsed (model : option string) (dry : bool) : Args :=
  {| a_species := "BosTau"; a_genetic_map := None; a_chromosome := Some "chr1";
     bibtex_file := None; dry_run := dry; length_multiplier := 1%float; seed := None;
     a_demographic_model := model; output := None; samples := [10];
     a_engine := "msprime"; engine_options := [] |}.

Definition iona : option string := Some "IonaInferredDemography".

Definition cattle_run (model : option string) (dry : bool)
    : Run unit unit :=
  run_simulation own_citation "stdpopsim" [msprime_engine] cattle (parsed model dry).

(** A model whose first population does not allow samples. *)
Definition ghost_then_sampled : Result DemographicModel :=
  DemographicModel_new "TwoPop" "a ghost population, then a sampled one" ""
    [ {| pop_id := "ghost"; pop_description := "not sampled";
         allow_samples := false; sampling_time := 0 |};
      Population_new "sampled" "sampled at present" ]
    [] 1
    [ {| initial_size := Some 100; growth_rate := 0%float; metadata := None |};
      {| initial_size := Some 100; growth_rate := 0%float; metadata := None |} ]
    None [].

(** ** stdpopsim/cli.py: logging, the msprime options, the download of maps *)

(** *** Logging *)

Inductive LogLevel : Type := DEBUG | INFO | WARN | ERROR.

(** The numbers of the levels in [logging]. *)
Definition levelno (l : LogLevel) : Z :=
  match l with DEBUG => 10 | INFO => 20 | WARN => 30 | ERROR => 40 end.

(** [setup_logging(args)]: the level given to [logging.basicConfig], from
    [args.verbose] (the count of [-v], starting at 1; [--quiet] sets 0). *)
Definition setup_logging (verbose : Z) : LogLevel :=
  let log_level := ERROR in
  if verbose =? 1 then WARN
  else if verbose =? 2 then INFO
  else if 2 <? verbose then DEBUG
  else log_level.

(** [Logger.isEnabledFor]: a record passes when its level is at least the
    level that was configured. *)
Definition isEnabledFor (configured record : LogLevel) : bool :=
  levelno configured <=? levelno record.

(** The level of the log record an event of a run stands for:
    [logger.info] for the line before the run and for the resource usage
    (which [summarise_usage] logs where the [resource] module exists),
    [logger.warning] for the summary and the citation request,
    [warnings.warn], captured by [logging.captureWarnings(True)] at the
    warning level, and [logger.debug] for the records of [write_output]
    ("Updating provenance" and, with an output file, "Writing to ...").
    cli.py logs nothing where it calls the engine and in [write_bibtex]. *)
Definition event_level {TreeSequence : Type} (ev : Event TreeSequence)
    : option LogLevel :=
  match ev with
  | Log_info_running _ _ _ _ _ => Some INFO
  | Log_summary _ => Some WARN
  | Warn_not_QCed _ => Some WARN
  | Engine_simulate _ _ => None
  | Summarise_usage => Some INFO
  | Write_output _ _ => Some DEBUG
  | Write_citations _ => Some WARN
  | Write_bibtex _ _ => None
  end.

(** The log record of the event reaches the handler. *)
Definition shown {TreeSequence : Type} (verbose : Z) (ev : Event TreeSequence)
    : bool :=
  match event_level ev with
  | Some l => isEnabledFor (setup_logging verbose) l
  | None => false
  end.

(** The events that come after the return of the engine. *)
Definition after_engine {TreeSequence : Type} (ev : Event TreeSequence) : bool :=
  match ev with
  | Summarise_usage | Write_output _ _ | Write_citations _ | Write_bibtex _ _ => true
  | _ => false
  end.

(** *** The option [--msprime-change-model T MODEL] *)

Inductive TimeOrModel : Type :=
| ChangeTime (t : float)
| ChangeModel (name : string).

Section MsprimeChangeModel.

(** [float(arg)], [None] when it raises [ValueError], and the models the
    msprime engine supports. *)
Variable py_float : string -> option float.
Variable supported_models : list string.

(** [time_or_model(arg)]: the flag [_arg_is_time] lives in a default
    argument, so it is kept from one call to the next; the function returns
    the converted argument and leaves the flag flipped. A usage error ends
    the program. *)
Definition time_or_model (_arg_is_time : bool) (arg : string)
    : Result (TimeOrModel * bool) :=
  if _arg_is_time then
    match py_float arg with
    | Some t => Ok (ChangeTime t, negb _arg_is_time)
    | None => Raise (ArgparseError ("`" ++ arg ++ "' is not a number")%string)
    end
  else
    if existsb (String.eqb arg) supported_models
    then Ok (ChangeModel arg, negb _arg_is_time)
    else Raise (ArgparseError ("`" ++ arg ++ "' is not a supported model")%string).

(** argparse converts the arguments it meets one after the other. *)
Fixpoint convert_arguments (_arg_is_time : bool) (args : list string)
    : Result (list TimeOrModel * bool) :=
  match args with
  | [] => Ok ([], _arg_is_time)
  | arg :: rest =>
      converted <- time_or_model _arg_is_time arg;;
      others <- convert_arguments (snd converted) rest;;
      Ok (fst converted :: fst others, snd others)
  end.

(** The arguments of the option given several times, as argparse meets
    them, and what their conversion is expected to give. *)
Definition change_arguments (changes : list (string * string)) : list string :=
  flat_map (fun change => [fst change; snd change]) changes.

Definition well_formed_change (change : string * string) : Prop :=
  py_float (fst change) <> None /\ In (snd change) supported_models.

Definition converted_changes (changes : list (string * string))
    : list TimeOrModel :=
  flat_map (fun change =>
              match py_float (fst change) with
              | Some t => [ChangeTime t; ChangeModel (snd change)]
              | None => []
              end) changes.

End MsprimeChangeModel.

(** *** The subcommand [download-genetic-maps] *)

Record DownloadArgs : Type := mkDownloadArgs {
  dl_species : option string;
  dl_genetic_maps : list string
}.

Inductive DownloadEvent : Type :=
| Log_downloading (species_id map_id : string)
| Download (gm : GeneticMap).

Section DownloadGeneticMaps.

(** The program name, the registered species and the download of a map,
    which may fail. *)
Variable argv0 : string.
Variable registry : Registry.
Variable download : GeneticMap -> Result unit.

Definition Downloads (A : Type) : Type := (list DownloadEvent * Result A)%type.

Definition and_then {A B : Type} (m : Downloads A) (k : A -> Downloads B)
    : Downloads B :=
  match m with
  | (t, Ok a) => let '(t', r) := k a in (t ++ t', r)
  | (t, Raise e) => (t, Raise e)
  end.

(** A [for] loop: an exception in one turn ends the loop. *)
Fixpoint for_each {A : Type} (body : A -> Downloads unit) (l : list A)
    : Downloads unit :=
  match l with
  | [] => ([], Ok tt)
  | a :: rest => and_then (body a) (fun _ => for_each body rest)
  end.

(** [get_species_wrapper] and [get_genetic_map_wrapper]: a failed lookup
    ends the program. *)
Definition get_species_wrapper (species_id : string) : Downloads Species :=
  match get_species species_id registry with
  | Ok sp => ([], Ok sp)
  | Raise (UnknownSpeciesError sid) =>
      ([], Raise (SystemExit (argv0 ++ ": unknown species " ++ sid)%string))
  | Raise e => ([], Raise e)
  end.

Definition get_genetic_map_wrapper (species : Species) (genetic_map_id : string)
    : Downloads GeneticMap :=
  match get_genetic_map species genetic_map_id with
  | Ok gm => ([], Ok gm)
  | Raise (UnknownGeneticMapError gid) =>
      ([], Raise (SystemExit (argv0 ++ ": unknown genetic map " ++ gid)%string))
  | Raise e => ([], Raise e)
  end.

(** The body of the inner loop, for one map of one species. *)
Definition download_one (species : Species) (species_id genetic_map_id : string)
    : Downloads unit :=
  and_then (get_genetic_map_wrapper species genetic_map_id) (fun genetic_map =>
  and_then ([Log_downloading species_id genetic_map_id], Ok tt) (fun _ =>
  ([Download genetic_map], download genetic_map))).

Definition run_download_genetic_maps (args : DownloadArgs) : Downloads unit :=
  let species_names :=
    match dl_species args with
    | None => map sp_id (all_species registry)
    | Some s => [s]
    end in
  for_each (fun species_id =>
    and_then (get_species_wrapper species_id) (fun species =>
      let genetic_maps :=
        if (length (dl_genetic_maps args) =? 0)%nat
        then map gm_id (genetic_maps species)
        else dl_genetic_maps args in
      for_each (download_one species species_id) genetic_maps))
    species_names.

(** The events of the download of all the maps of a species. *)
Definition downloads_of (species : Species) : list DownloadEvent :=
  flat_map (fun gm => [Log_downloading (sp_id species) (gm_id gm); Download gm])
           (genetic_maps species).

(** The events of the download of the maps of a species that are named by
    [ids], as far as the species has them. *)
Definition downloads_named (species : Species) (species_id : string)
    (ids : list string) : list DownloadEvent :=
  flat_map (fun gid =>
              match get_genetic_map species gid with
              | Ok gm => [Log_downloading species_id gid; Download gm]
              | Raise _ => []
              end) ids.

End DownloadGeneticMaps.

(** *** What the parser of a species subcommand accepts *)

(** The value of an option with choices: not given, or one of the choices. *)
Definition among (choices : list string) (v : option string) : Prop :=
  match v with
  | None => True
  | Some x => In x choices
  end.

Definition accepted {TreeSequence : Type} (engines : list (Engine TreeSequence))
    (species : Species) (cmd : CommandLine) : Prop :=
  among (map engine_id engines) (opt_engine cmd) /\
  (if (0 <? length (genetic_maps species))%nat
   then among (map gm_id (genetic_maps species)) (opt_genetic_map cmd)
   else opt_genetic_map cmd = None) /\
  (if (1 <? length (chromosomes (genome species)))%nat
   then among (map chr_id (chromosomes (genome species))) (opt_chromosome cmd)
   else opt_chromosome cmd = None) /\
  among (map dm_id (demographic_models species)) (opt_demographic_model cmd) /\
  arg_samples cmd <> [].

(** The chromosome a successful parse gives. *)
Definition parsed_chromosome (species : Species) (cmd : CommandLine)
    : option string :=
  if (1 <? length (chromosomes (genome species)))%nat then
    match opt_chromosome cmd with
    | Some c => Some c
    | None => head (map chr_id (chromosomes (genome species)))
    end
  else None.

(** *** The sources of the citations of a run *)

(** The citation [c] is one of those [get_citations] collects: stdpopsim's
    own, those of the engine, of the genome, of the genetic map when the
    contig has one, and of the model. *)
Definition is_source {TreeSequence : Type} (own : Citation)
    (engine : Engine TreeSequence) (model : DemographicModel) (contig : Contig)
    (species : Species) (c : Citation) : Prop :=
  c = own \/
  In c (engine_citations engine) \/
  In c (assembly_citations (genome species)) \/
  In c (mutation_rate_citations (genome species)) \/
  In c (recombination_rate_citations (genome species)) \/
  (exists gm, genetic_map contig = Some gm /\ In c (gm_citations gm)) \/
  In c (dm_citations model).

(** Two citations of the same publication. *)
Definition same_publication (a c : Citation) : Prop :=
  doi a = doi c /\ year a = year c /\ author a = author c.

(** *** What the tally of the summary counts *)

(** The sample [s] is counted at index [p] of [n] counters: its population
    is [p], or [p - n], which Python reads from the end of the list. *)
Definition counted_at (n p : nat) (s : Sample) : bool :=
  (population s =? Z.of_nat p) || (population s =? Z.of_nat p - Z.of_nat n).

Definition count_at (n p : nat) (sampled : list Sample) : nat :=
  length (List.filter (counted_at n p) sampled).

(** The population index of [s] is an index of a list of length [n]. *)
Definition indexable (n : nat) (s : Sample) : Prop :=
  - Z.of_nat n <= population s < Z.of_nat n.

(** *** Concrete inputs for the download of maps and for failing engines *)

Definition failing_engine : Engine unit :=
  {| engine_id := "slim"; engine_citations := []; get_version := "3.4";
     simulate := fun _ => Raise (EngineError "slim: command not found") |}.

Definition map_a : GeneticMap :=
  {| gm_id := "MapA"; gm_citations := []; gm_long_description := "first map";
     chromosome_rates := fun _ => Ok (UniformRate 1e-8%float) |}.

Definition map_b : GeneticMap :=
  {| gm_id := "MapB"; gm_citations := []; gm_long_description := "second map";
     chromosome_rates := fun _ => Ok (UniformRate 2e-8%float) |}.

(** Cattle with two genetic maps. *)
Definition mapped_cattle : Species :=
  {| sp_id := sp_id cattle; sp_name := sp_name cattle;
     common_name := common_name cattle; genome := genome cattle;
     generation_time := generation_time cattle;
     generation_time_citations := generation_time_citations cattle;
     population_size := population_size cattle;
     population_size_citations := population_size_citations cattle;
     demographic_models := demographic_models cattle;
     genetic_maps := [map_a; map_b] |}.

(** A contig with a uniform rate and no genetic map. *)
Definition uniform_contig (len rate : float) : Contig :=
  {| recombination_map := uniform_map len rate;
     contig_mutation_rate := 1e-8; genetic_map := None |}.

(** A species whose genome is one chromosome. *)
Definition lone_chromosome : Chromosome :=
  {| chr_id := "chrM"; chr_length := 16338;
     mutation_rate := 1e-8; recombination_rate := 0 |}.

Definition single_chromosome_species : Species :=
  BosTau._species [lone_chromosome].

Definition download_ok (gm : GeneticMap) : Result unit := Ok tt.

(** The download of the second map fails. *)
Definition download_flaky (gm : GeneticMap) : Result unit :=
  if String.eqb (gm_id gm) "MapB" then Raise (CacheError "no network") else Ok tt.

(** The parsed command line of cattle with [-e slim] and [-b refs.bib]. *)
Definition parsed_with (engine : string) (bibtex : option string)
    (model : option string) : Args :=
  {| a_species := "BosTau"; a_genetic_map := None; a_chromosome := Some "chr1";
     bibtex_file := bibtex; dry_run := false; length_multiplier := 1%float;
     seed := None; a_demographic_model := model; output := None;
     samples := [10]; a_engine := engine; engine_options := [] |}.

(** [float] on the two time arguments used below. *)
Definition float_of_example (s : string) : option float :=
  if String.eqb s "100" then Some 100%float
  else if String.eqb s "2.5e3" then Some 2500%float
  else None.

(** * Properties *)

Ltac bind_inv H :=
  repeat match type of H with
         | rbind ?r _ = Ok _ =>
             let E := fresh "E" in
             destruct r eqn:E; cbn [rbind] in H; [| discriminate H]
         end.

Ltac find_event := repeat first [left; reflexivity | right].


(** ** The Bos Taurus catalog *)

(** C1: loading the BosTau catalog into an empty registry registers the
    species "Bos Taurus" with a genome of exactly 30 chromosomes; its model
    "IonaInferredDemography" has exactly one population, one initial
    configuration with initial_size 90 and growth_rate 0.0166, and 14
    demographic events; get_samples(10) gives exactly 10 samples, each with
    population 0 and time 0, and get_samples(1, 1) fails with
    TooManySamplePopulationsError. *)
Theorem BosTau_end_to_end :
  exists reg sp m sampled,
    BosTau.load [] = Ok reg /\
    get_species "BosTau" reg = Ok sp /\
    sp_name sp = "Bos Taurus" /\
    length (chromosomes (genome sp)) = 30%nat /\
    get_demographic_model sp "IonaInferredDemography" = Ok m /\
    length (populations m) = 1%nat /\
    num_sampling_populations m = 1%nat /\
    map (fun c => (initial_size c, growth_rate c)) (population_configurations m)
      = [(Some 90, 0.0166%float)] /\
    length (demographic_events m) = 14%nat /\
    get_samples m [10] = Ok sampled /\
    length sampled = 10%nat /\
    Forall (fun s => population s = 0 /\ sample_time s = 0) sampled /\
    get_samples m [1; 1] = Raise TooManySamplePopulationsError.
Proof.
  do 4 eexists.
  repeat match goal with |- _ /\ _ => split end;
    try (vm_compute; reflexivity).
  vm_compute. repeat constructor.
Qed.

(** C8: the model "IonaInferredDemography" passes the validation of the
    constructor and satisfies the invariant of demographic models: the index
    of its initial configuration and the population index of each of its
    events is 0, below its number of populations, which is 1; no event time
    is negative; the events come in non-decreasing time order, at times
    1, 4, 7, 13, 19, 25, 155, 455, 655, 1755, 2355, 3355, 33155, 933155. *)
Theorem IonaInferredDemography_invariant :
  exists m,
    BosTau._inferred_1_M_13 = Ok m /\
    length (populations m) = 1%nat /\
    configuration_indices (population_configurations m) = [0] /\
    Forall (fun i => 0 <= i < Z.of_nat (length (populations m)))
           (configuration_indices (population_configurations m)) /\
    Forall (fun ev => exists i, population_id ev = Some i /\ i = 0 /\
                      0 <= i < Z.of_nat (length (populations m)))
           (demographic_events m) /\
    Forall (fun ev => 0 <= time ev) (demographic_events m) /\
    map time (demographic_events m)
      = [1; 4; 7; 13; 19; 25; 155; 455; 655; 1755; 2355; 3355; 33155; 933155] /\
    Sorted Z.le (map time (demographic_events m)).
Proof.
  eexists.
  split; [vm_compute; reflexivity |].
  cbn [populations population_configurations demographic_events length].
  split; [reflexivity |].
  split; [reflexivity |].
  split.
  { unfold configuration_indices. cbn. repeat constructor; lia. }
  split.
  { repeat (constructor; [exists 0; repeat split; cbn; lia |]). constructor. }
  split.
  { repeat (constructor; [cbn; lia |]). constructor. }
  split; [reflexivity |].
  cbn. repeat (constructor; try lia).
Qed.

(** ** The sample-count reconciler *)

Lemma count_population_app i l1 l2 :
  count_population i (l1 ++ l2) = (count_population i l1 + count_population i l2)%nat.
Proof.
  unfold count_population. rewrite List.filter_app, length_app. reflexivity.
Qed.

Lemma count_population_repeat i j t n :
  count_population i (repeat {| population := j; sample_time := t |} n)
  = if j =? i then n else 0%nat.
Proof.
  unfold count_population.
  induction n as [|n IH]; cbn [repeat List.filter population].
  - destruct (j =? i); reflexivity.
  - destruct (j =? i) eqn:E; cbn [length]; rewrite IH; reflexivity.
Qed.

Lemma samples_from_range i pops counts :
  Forall (fun s => Z.of_nat i <= population s < Z.of_nat (i + length pops))
         (samples_from i pops counts).
Proof.
  revert i counts.
  induction pops as [|p pops IH]; intros i counts; cbn [samples_from].
  - constructor.
  - destruct counts as [|n counts]; [constructor |].
    apply Forall_app. split.
    + apply List.Forall_forall. intros s Hs. apply repeat_spec in Hs. subst s.
      cbn [population length]. lia.
    + eapply List.Forall_impl; [| apply (IH (S i) counts)].
      intros s Hs. cbn beta in *. cbn [length]. lia.
Qed.

Lemma count_population_below i j pops counts :
  j < Z.of_nat i -> count_population j (samples_from i pops counts) = 0%nat.
Proof.
  intros Hj. unfold count_population.
  pose proof (samples_from_range i pops counts) as Hr.
  induction Hr as [|s l Hs _ IH]; [reflexivity |].
  cbn [List.filter].
  destruct (population s =? j) eqn:E; [apply Z.eqb_eq in E; lia | exact IH].
Qed.

Lemma samples_from_zeros i pops k :
  samples_from i pops (repeat 0 k) = [].
Proof.
  revert i k. induction pops as [|p pops IH]; intros i [|k]; try reflexivity.
  cbn [repeat samples_from Z.to_nat app]. apply IH.
Qed.

Lemma samples_from_padding i pops counts k :
  samples_from i pops (counts ++ repeat 0 k) = samples_from i pops counts.
Proof.
  revert i counts. induction pops as [|p pops IH]; intros i counts.
  - reflexivity.
  - destruct counts as [|n counts].
    + rewrite app_nil_l, samples_from_zeros. reflexivity.
    + cbn [app samples_from]. rewrite IH. reflexivity.
Qed.

Lemma samples_from_count i pops counts k :
  (k < length pops)%nat ->
  count_population (Z.of_nat (i + k)) (samples_from i pops counts)
  = Z.to_nat (nth k counts 0).
Proof.
  revert i counts k.
  induction pops as [|p pops IH]; intros i counts k Hk; cbn [length] in Hk.
  - lia.
  - destruct counts as [|n counts].
    + cbn [samples_from]. destruct k; reflexivity.
    + cbn [samples_from]. rewrite count_population_app, count_population_repeat.
      destruct k as [|k].
      * replace (i + 0)%nat with i by lia. rewrite Z.eqb_refl.
        rewrite count_population_below by lia. cbn [nth]. lia.
      * destruct (Z.of_nat i =? Z.of_nat (i + S k)) eqn:E;
          [apply Z.eqb_eq in E; lia |].
        replace (i + S k)%nat with (S i + k)%nat by lia.
        rewrite IH by lia. reflexivity.
Qed.

Lemma get_samples_too_many m counts :
  (num_sampling_populations m < length counts)%nat ->
  get_samples m counts = Raise TooManySamplePopulationsError.
Proof.
  intros H. unfold get_samples, num_sampling_populations in *.
  destruct (Nat.ltb_spec (length (sampling_populations m)) (length counts));
    [reflexivity | lia].
Qed.

Lemma get_samples_fits m counts :
  (length counts <= num_sampling_populations m)%nat ->
  get_samples m counts = Ok (samples_from 0 (sampling_populations m) counts).
Proof.
  intros H. unfold get_samples, num_sampling_populations in *.
  destruct (Nat.ltb_spec (length (sampling_populations m)) (length counts));
    [lia |].
  rewrite samples_from_padding. reflexivity.
Qed.

Lemma get_samples_Ok_inv m counts sampled :
  get_samples m counts = Ok sampled ->
  (length counts <= num_sampling_populations m)%nat /\
  sampled = samples_from 0 (sampling_populations m) counts.
Proof.
  intros H.
  destruct (Nat.le_gt_cases (length counts) (num_sampling_populations m)) as [Hle|Hgt].
  - rewrite get_samples_fits in H by exact Hle. split; [exact Hle | congruence].
  - rewrite get_samples_too_many in H by exact Hgt. discriminate.
Qed.

Lemma get_samples_population_range m counts sampled :
  get_samples m counts = Ok sampled ->
  Forall (fun s => 0 <= population s < Z.of_nat (num_sampling_populations m)) sampled.
Proof.
  intros H. apply get_samples_Ok_inv in H as [_ ->].
  eapply List.Forall_impl; [| apply samples_from_range].
  intros s Hs. cbn beta in *. unfold num_sampling_populations. lia.
Qed.

Lemma num_sampling_populations_le m :
  (num_sampling_populations m <= length (populations m))%nat.
Proof.
  unfold num_sampling_populations, sampling_populations.
  apply List.filter_length_le.
Qed.

(** ** The summary of a run never indexes out of bounds *)

Lemma py_index_valid n i :
  0 <= i < Z.of_nat n -> py_index n i = Ok (Z.to_nat i).
Proof.
  intros H. unfold py_index.
  destruct (Z.leb_spec 0 i); [| lia].
  destruct (Z.ltb_spec i (Z.of_nat n)); [reflexivity | lia].
Qed.

Lemma getitem_valid {A : Type} (l : list A) i :
  0 <= i < Z.of_nat (length l) ->
  exists a, getitem l i = Ok a /\ l !! Z.to_nat i = Some a.
Proof.
  intros H. unfold getitem. rewrite py_index_valid by exact H.
  cbn [rbind].
  destruct (l !! Z.to_nat i) as [a|] eqn:E.
  - exists a. split; reflexivity.
  - apply lookup_ge_None in E. lia.
Qed.

Lemma increment_valid sample_counts i :
  0 <= i < Z.of_nat (length sample_counts) ->
  exists counts', increment sample_counts i = Ok counts' /\
                  length counts' = length sample_counts.
Proof.
  intros H. unfold increment. rewrite py_index_valid by exact H.
  destruct (getitem_valid sample_counts i H) as (c & Hc & _).
  cbn [rbind]. rewrite Hc. cbn [rbind].
  eexists. split; [reflexivity | apply length_insert].
Qed.

Lemma tally_valid sample_counts sampled :
  Forall (fun s => 0 <= population s < Z.of_nat (length sample_counts)) sampled ->
  exists counts', tally sample_counts sampled = Ok counts' /\
                  length counts' = length sample_counts.
Proof.
  intros H. revert sample_counts H.
  induction sampled as [|s rest IH]; intros sample_counts H.
  - exists sample_counts. split; reflexivity.
  - apply Forall_cons in H as [Hs Hrest].
    destruct (increment_valid sample_counts (population s) Hs) as (c1 & Hc1 & Hlen).
    cbn [tally]. rewrite Hc1. cbn [rbind].
    destruct (IH c1) as (c2 & Hc2 & Hlen2).
    + rewrite Hlen. exact Hrest.
    + exists c2. split; [exact Hc2 | congruence].
Qed.

Lemma mapM_Ok {A B : Type} (f : A -> Result B) (l : list A) :
  (forall x, In x l -> exists y, f x = Ok y) ->
  exists ys, mapM f l = Ok ys /\ length ys = length l.
Proof.
  induction l as [|x l IH]; intros H.
  - exists []. split; reflexivity.
  - destruct (H x (or_introl eq_refl)) as (y & Hy).
    destruct IH as (ys & Hys & Hlen).
    + intros x' Hx'. apply H. right. exact Hx'.
    + exists (y :: ys). cbn [mapM]. rewrite Hy. cbn [rbind]. rewrite Hys.
      cbn [rbind length]. split; [reflexivity | congruence].
Qed.

Lemma summary_rows_Ok m sampled :
  Forall (fun s => 0 <= population s < Z.of_nat (num_sampling_populations m)) sampled ->
  exists rows, summary_rows m sampled = Ok rows /\
               length rows = num_sampling_populations m.
Proof.
  intros H. unfold summary_rows.
  destruct (tally_valid (repeat 0 (num_sampling_populations m)) sampled)
    as (counts & Hcounts & Hlen).
  { rewrite repeat_length. exact H. }
  rewrite Hcounts. cbn [rbind]. rewrite repeat_length in Hlen.
  match goal with |- exists rows, mapM ?f ?l = _ /\ _ =>
    destruct (mapM_Ok f l) as (rows & Hrows & Hl) end.
  - intros p Hp. apply in_seq in Hp.
    pose proof (num_sampling_populations_le m) as Hle.
    destruct (getitem_valid (populations m) (Z.of_nat p)) as (pop & Hpop & _); [lia |].
    destruct (getitem_valid counts (Z.of_nat p)) as (c & Hc & _); [lia |].
    rewrite Hpop. cbn [rbind]. rewrite Hc. cbn [rbind]. eexists. reflexivity.
  - exists rows. split; [exact Hrows |]. rewrite Hl. apply length_seq.
Qed.

Lemma getitem_of_nat {A : Type} (l : list A) (p : nat) (a : A) :
  getitem l (Z.of_nat p) = Ok a -> l !! p = Some a.
Proof.
  unfold getitem, py_index.
  destruct (Z.leb_spec 0 (Z.of_nat p)); [| lia].
  destruct (Z.ltb_spec (Z.of_nat p) (Z.of_nat (length l))); cbn [andb rbind].
  - rewrite Nat2Z.id. destruct (l !! p); [congruence | discriminate].
  - destruct (Z.ltb_spec (Z.of_nat p) 0); [lia |].
    rewrite andb_false_r. discriminate.
Qed.

Lemma mapM_Forall2 {A B : Type} (f : A -> Result B) (l : list A) (ys : list B) :
  mapM f l = Ok ys -> Forall2 (fun x y => f x = Ok y) l ys.
Proof.
  revert ys. induction l as [|x l IH]; intros ys H; cbn [mapM] in H.
  - injection H as <-. constructor.
  - destruct (f x) as [y|e] eqn:Hy; cbn [rbind] in H; [| discriminate].
    destruct (mapM f l) as [ys'|e] eqn:Hys; cbn [rbind] in H; [| discriminate].
    injection H as <-. constructor; [exact Hy | apply IH; reflexivity].
Qed.

(** Row [p] of the summary shows the name and the sampling time of the
    population at index [p] of the model. *)
Lemma summary_rows_populations m sampled rows :
  summary_rows m sampled = Ok rows ->
  Forall2 (fun (p : nat) (row : string * Z * Z) =>
             exists pop c, populations m !! p = Some pop /\
                           row = (pop_id pop, c, sampling_time pop))
          (seq 0 (num_sampling_populations m)) rows.
Proof.
  unfold summary_rows. intros H.
  destruct (tally _ sampled) as [counts|e]; cbn [rbind] in H; [| discriminate].
  apply mapM_Forall2 in H.
  eapply Forall2_impl; [exact H |].
  intros p row Hrow. cbn beta in Hrow.
  destruct (getitem (populations m) (Z.of_nat p)) as [pop|e] eqn:Hpop;
    cbn [rbind] in Hrow; [| discriminate].
  destruct (getitem counts (Z.of_nat p)) as [c|e] eqn:Hc;
    cbn [rbind] in Hrow; [| discriminate].
  exists pop, c. split; [apply getitem_of_nat; exact Hpop | congruence].
Qed.

(** C10 (amended): for every model and every sample list that get_samples
    produces, each sample's population index is at least 0 and strictly less
    than num_sampling_populations, and num_sampling_populations is at most the
    number of populations of the model, so the tally and the populations[p]
    lookups of write_simulation_summary never index out of bounds: the
    summary has one row per index below num_sampling_populations, and row p
    shows the population at index p of the model's population sequence. *)
Theorem summary_in_bounds (m : DemographicModel) (counts : list Z)
    (sampled : list Sample) :
  get_samples m counts = Ok sampled ->
  Forall (fun s => 0 <= population s < Z.of_nat (num_sampling_populations m))
         sampled /\
  (num_sampling_populations m <= length (populations m))%nat /\
  exists rows,
    summary_rows m sampled = Ok rows /\
    length rows = num_sampling_populations m /\
    Forall2 (fun (p : nat) (row : string * Z * Z) =>
               exists pop c, populations m !! p = Some pop /\
                             row = (pop_id pop, c, sampling_time pop))
            (seq 0 (num_sampling_populations m)) rows.
Proof.
  intros H.
  pose proof (get_samples_population_range m counts sampled H) as Hrange.
  split; [exact Hrange |].
  split; [apply num_sampling_populations_le |].
  destruct (summary_rows_Ok m sampled Hrange) as (rows & Hrows & Hlen).
  exists rows. split; [exact Hrows |]. split; [exact Hlen |].
  apply summary_rows_populations with (sampled := sampled). exact Hrows.
Qed.

Lemma summary_in_bounds_witness :
  exists m sampled,
    ghost_then_sampled = Ok m /\ get_samples m [2] = Ok sampled /\
    Forall (fun s => 0 <= population s < Z.of_nat (num_sampling_populations m))
           sampled /\
    (num_sampling_populations m <= length (populations m))%nat /\
    exists rows,
      summary_rows m sampled = Ok rows /\
      length rows = num_sampling_populations m /\
      Forall2 (fun (p : nat) (row : string * Z * Z) =>
                 exists pop c, populations m !! p = Some pop /\
                               row = (pop_id pop, c, sampling_time pop))
              (seq 0 (num_sampling_populations m)) rows.
Proof.
  eexists. eexists.
  split; [vm_compute; reflexivity |].
  split; [vm_compute; reflexivity |].
  eapply summary_in_bounds with (counts := [2]).
  vm_compute. reflexivity.
Defined.

(** C10, as stated, fails: the sampling populations need not be the first
    num_sampling_populations entries of the population sequence. Here the
    only sampling population is the second one; both samples carry index 0
    and the summary row shows the first population, which is not sampled. *)
Lemma sampling_populations_not_first :
  exists m sampled,
    ghost_then_sampled = Ok m /\
    get_samples m [2] = Ok sampled /\
    take (num_sampling_populations m) (populations m) <> sampling_populations m /\
    map pop_id (take (num_sampling_populations m) (populations m)) = ["ghost"] /\
    map pop_id (sampling_populations m) = ["sampled"] /\
    summary_rows m sampled = Ok [("ghost", 2, 0)].
Proof.
  eexists. eexists.
  split; [vm_compute; reflexivity |].
  split; [vm_compute; reflexivity |].
  split; [vm_compute; discriminate |].
  repeat split; vm_compute; reflexivity.
Qed.

(** ** The shape of a run *)

Section Runs.

Variable TreeSequence : Type.
Variable _stdpopsim_citation : Citation.
Variable argv0 : string.
Variable engines : list (Engine TreeSequence).

#[local] Abbreviation run := (run_simulation _stdpopsim_citation argv0 engines).
#[local] Abbreviation selected := (select_model TreeSequence argv0).
#[local] Abbreviation citations_of := (get_citations _stdpopsim_citation).

Lemma select_model_trace species args :
  trace (selected species args) = [].
Proof.
  unfold select_model. destruct (a_demographic_model args) as [mid|]; [| reflexivity].
  unfold get_model_wrapper.
  destruct (get_demographic_model species mid) as [m|[]]; reflexivity.
Qed.

(** A run in which the model is selected, the samples fit, the contig is
    resolved and the engine is known calls the engine, and goes on exactly
    when the engine returns. *)
Lemma run_simulation_reaches_engine species args model qc sampled contig (engine : Engine TreeSequence) :
  outcome (selected species args) = Ok (model, qc) ->
  get_samples model (samples args) = Ok sampled ->
  get_contig species (a_chromosome args) (a_genetic_map args)
    (length_multiplier args) = Ok contig ->
  get_engine engines (a_engine args) = Ok engine ->
  exists rows,
    summary_rows model sampled = Ok rows /\
    run species args =
      match simulate engine (kwargs_of args model contig sampled) with
      | Raise e =>
          (opening_events species args model qc contig engine sampled rows, Raise e)
      | Ok ts =>
          (opening_events species args model qc contig engine sampled rows
           ++ closing_events _stdpopsim_citation species args model qc contig engine ts, Ok tt)
      end.
Proof.
  intros Hsel Hsamples Hcontig Hengine.
  destruct (summary_rows_Ok model sampled) as (rows & Hrows & _).
  { eapply get_samples_population_range. exact Hsamples. }
  exists rows. split; [exact Hrows |].
  pose proof (select_model_trace species args) as Htr.
  unfold run_simulation.
  destruct (selected species args) as [t0 r0].
  cbn [trace outcome fst snd] in Htr, Hsel. subst t0 r0.
  apply get_samples_Ok_inv in Hsamples as Hfit. destruct Hfit as [Hfit _].
  cbn [bind fst snd].
  destruct (Nat.ltb_spec (num_sampling_populations model) (length (samples args)));
    [lia |].
  rewrite Hsamples, Hcontig, Hengine.
  cbn [bind lift emit fst snd].
  unfold write_simulation_summary. rewrite Hrows.
  unfold kwargs_of, opening_events, closing_events.
  destruct (simulate engine _) as [[t|]|e];
    destruct qc; destruct (bibtex_file args); reflexivity.
Qed.

(** Conversely, the engine is only called in such a run. *)
Lemma engine_invoked_inv species args e kw :
  In (Engine_simulate e kw) (trace (run species args)) ->
  exists model qc sampled contig,
    outcome (selected species args) = Ok (model, qc) /\
    get_samples model (samples args) = Ok sampled /\
    get_contig species (a_chromosome args) (a_genetic_map args)
      (length_multiplier args) = Ok contig /\
    get_engine engines (a_engine args) = Ok e /\
    kw = kwargs_of args model contig sampled.
Proof.
  intros Hin.
  pose proof (select_model_trace species args) as Htr.
  destruct (selected species args) as [t0 [[model qc]|err]] eqn:Hsel;
    cbn [trace fst] in Htr; subst t0.
  2:{ unfold run_simulation in Hin. rewrite Hsel in Hin.
      cbn in Hin. contradiction. }
  destruct (get_samples model (samples args)) as [sampled|err] eqn:Hsamples.
  2:{ unfold run_simulation in Hin. rewrite Hsel in Hin.
      cbn [bind fst snd] in Hin.
      destruct (_ <? _)%nat; [cbn in Hin; contradiction |].
      rewrite Hsamples in Hin. cbn in Hin. contradiction. }
  destruct (get_contig species (a_chromosome args) (a_genetic_map args)
              (length_multiplier args)) as [contig|err] eqn:Hcontig.
  2:{ unfold run_simulation in Hin. rewrite Hsel in Hin.
      cbn [bind fst snd] in Hin.
      destruct (_ <? _)%nat; [cbn in Hin; contradiction |].
      rewrite Hsamples, Hcontig in Hin. cbn in Hin. contradiction. }
  destruct (get_engine engines (a_engine args)) as [engine|err] eqn:Hengine.
  2:{ unfold run_simulation in Hin. rewrite Hsel in Hin.
      cbn [bind fst snd] in Hin.
      destruct (_ <? _)%nat; [cbn in Hin; contradiction |].
      rewrite Hsamples, Hcontig, Hengine in Hin. cbn in Hin. contradiction. }
  destruct (run_simulation_reaches_engine species args model qc sampled contig engine)
    as (rows & _ & Hrun); try assumption.
  { rewrite Hsel. reflexivity. }
  rewrite Hrun in Hin.
  assert (Hopen : forall x, In x (opening_events species args model qc contig engine sampled rows) ->
            x = Engine_simulate e kw ->
            e = engine /\ kw = kwargs_of args model contig sampled).
  { intros x Hx ->. unfold opening_events in Hx.
    destruct qc; cbn in Hx; intuition (try discriminate);
      match goal with H : Engine_simulate _ _ = Engine_simulate _ _ |- _ =>
        injection H as <- <- end; split; reflexivity. }
  assert (Hclose : forall ts x, In x (closing_events _stdpopsim_citation species args model qc contig engine ts) ->
            x <> Engine_simulate e kw).
  { intros ts x Hx ->. unfold closing_events in Hx.
    destruct ts, qc, (bibtex_file args); cbn in Hx; intuition discriminate. }
  assert (Heq : e = engine /\ kw = kwargs_of args model contig sampled).
  { destruct (simulate engine _) as [ts|err]; cbn [trace fst] in Hin.
    - apply in_app_or in Hin as [Hin|Hin].
      + exact (Hopen _ Hin eq_refl).
      + exfalso. exact (Hclose ts _ Hin eq_refl).
    - exact (Hopen _ Hin eq_refl). }
  destruct Heq as [-> ->].
  exists model, qc, sampled, contig.
  repeat split; assumption || reflexivity.
Qed.

(** A run that does not reach the engine does nothing at all and fails. *)
Lemma run_simulation_cases species args :
  (exists model qc sampled contig engine,
     outcome (selected species args) = Ok (model, qc) /\
     get_samples model (samples args) = Ok sampled /\
     get_contig species (a_chromosome args) (a_genetic_map args)
       (length_multiplier args) = Ok contig /\
     get_engine engines (a_engine args) = Ok engine)
  \/ (trace (run species args) = [] /\ exists err, outcome (run species args) = Raise err).
Proof.
  pose proof (select_model_trace species args) as Htr.
  destruct (selected species args) as [t0 [[model qc]|err]] eqn:Hsel;
    cbn [trace fst] in Htr; subst t0.
  2:{ right. unfold run_simulation. rewrite Hsel. cbn. eauto. }
  destruct (get_samples model (samples args)) as [sampled|err] eqn:Hsamples.
  2:{ right. unfold run_simulation. rewrite Hsel. cbn [bind fst snd].
      destruct (_ <? _)%nat; [cbn; eauto |].
      rewrite Hsamples. cbn. eauto. }
  destruct (get_contig species (a_chromosome args) (a_genetic_map args)
              (length_multiplier args)) as [contig|err] eqn:Hcontig.
  2:{ right. unfold run_simulation. rewrite Hsel. cbn [bind fst snd].
      destruct (_ <? _)%nat; [cbn; eauto |].
      rewrite Hsamples, Hcontig. cbn. eauto. }
  destruct (get_engine engines (a_engine args)) as [engine|err] eqn:Hengine.
  2:{ right. unfold run_simulation. rewrite Hsel. cbn [bind fst snd].
      destruct (_ <? _)%nat; [cbn; eauto |].
      rewrite Hsamples, Hcontig, Hengine. cbn. eauto. }
  left. exists model, qc, sampled, contig, engine. repeat split; assumption.
Qed.

Lemma In_opening_events species args model qc contig (engine : Engine TreeSequence) sampled rows x :
  In x (opening_events species args model qc contig engine sampled rows) ->
  (exists a b c d e, x = Log_info_running a b c d e) \/
  (exists s, x = Log_summary s) \/
  (qc = false /\ x = Warn_not_QCed (dm_id model)) \/
  x = Engine_simulate engine (kwargs_of args model contig sampled).
Proof.
  unfold opening_events. destruct qc; cbn [app In].
  - intros [<-|[<-|[<-|[]]]].
    + left. do 5 eexists. reflexivity.
    + right. left. eexists. reflexivity.
    + right. right. right. reflexivity.
  - intros [<-|[<-|[<-|[<-|[]]]]].
    + left. do 5 eexists. reflexivity.
    + right. left. eexists. reflexivity.
    + right. right. left. split; reflexivity.
    + right. right. right. reflexivity.
Qed.

Lemma In_closing_events species args model qc contig (engine : Engine TreeSequence) ts x :
  In x (closing_events _stdpopsim_citation species args model qc contig engine ts) ->
  x = Summarise_usage \/
  (exists t, ts = Some t /\ x = Write_output t (output args)) \/
  (qc = true /\ x = Write_citations (citations_of engine model contig species)) \/
  (exists file, bibtex_file args = Some file /\
                x = Write_bibtex (citations_of engine model contig species) file).
Proof.
  unfold closing_events.
  destruct ts as [t|], qc, (bibtex_file args) as [file|]; cbn [app In]; intros Hx;
    repeat match goal with
           | H : _ \/ _ |- _ => destruct H as [<-|H]
           | H : False |- _ => destruct H
           end;
    first [ left; reflexivity
          | right; left; exists t; split; reflexivity
          | right; right; left; split; reflexivity
          | right; right; right; exists file; split; reflexivity ].
Qed.

Lemma engine_in_opening_events species args model qc contig (engine : Engine TreeSequence) sampled rows :
  In (Engine_simulate engine (kwargs_of args model contig sampled))
     (opening_events species args model qc contig engine sampled rows).
Proof.
  unfold opening_events. rewrite !in_app_iff. right. right. left. reflexivity.
Qed.


Lemma output_in_closing_events species args model qc contig (engine : Engine TreeSequence) t :
  In (Write_output t (output args))
     (closing_events _stdpopsim_citation species args model qc contig engine (Some t)).
Proof.
  unfold closing_events. rewrite !in_app_iff. right. left. left. reflexivity.
Qed.


(** *** Too many sample counts *)

(** C2: for every model and every sequence of sample counts, more counts
    than sampling populations make get_samples fail with
    TooManySamplePopulationsError, and a run of the command line with this
    model and these counts ends (with the exit of the program) before any
    call of the engine; with at most as many counts as sampling populations,
    get_samples succeeds, adding trailing zero counts changes nothing, and
    sampling population i gets exactly its count, which is 0 when the count
    is left out. *)
Theorem sample_counts_reconciled (m : DemographicModel) (counts : list Z) :
  ((num_sampling_populations m < length counts)%nat ->
     get_samples m counts = Raise TooManySamplePopulationsError /\
     forall species args qc,
       outcome (selected species args) = Ok (m, qc) ->
       samples args = counts ->
       (exists msg, outcome (run species args) = Raise (SystemExit msg)) /\
       ~ engine_invoked (trace (run species args)))
  /\
  ((length counts <= num_sampling_populations m)%nat ->
     exists sampled,
       get_samples m counts = Ok sampled /\
       (forall k, (length counts + k <= num_sampling_populations m)%nat ->
                  get_samples m (counts ++ repeat 0 k) = Ok sampled) /\
       (forall i, (i < num_sampling_populations m)%nat ->
                  count_population (Z.of_nat i) sampled = Z.to_nat (nth i counts 0))).
Proof.
  split.
  - intros Hmany. split; [apply get_samples_too_many; exact Hmany |].
    intros species args qc Hsel Hcounts. subst counts.
    pose proof (select_model_trace species args) as Htr.
    unfold run_simulation.
    destruct (selected species args) as [t0 r0].
    cbn [trace outcome fst snd] in Htr, Hsel. subst t0 r0.
    cbn [bind fst snd].
    destruct (Nat.ltb_spec (num_sampling_populations m) (length (samples args)));
      [| lia].
    cbn. split; [eexists; reflexivity |].
    intros (e & kw & []).
  - intros Hfits. exists (samples_from 0 (sampling_populations m) counts).
    split; [apply get_samples_fits; exact Hfits |].
    split.
    + intros k Hk. rewrite get_samples_fits.
      * rewrite samples_from_padding. reflexivity.
      * rewrite length_app, repeat_length. exact Hk.
    + intros i Hi. apply (samples_from_count 0 (sampling_populations m) counts i).
      exact Hi.
Qed.

Lemma engine_event_unique species args e kw e' kw' :
  In (Engine_simulate e kw) (trace (run species args)) ->
  In (Engine_simulate e' kw') (trace (run species args)) ->
  e = e' /\ kw = kw'.
Proof.
  intros H H'.
  apply engine_invoked_inv in H as (m & qc & sampled & contig & Hs & Hg & Hc & He & ->).
  apply engine_invoked_inv in H' as (m' & qc' & sampled' & contig' & Hs' & Hg' & Hc' & He' & ->).
  rewrite Hs in Hs'. injection Hs' as <- <-.
  rewrite Hg in Hg'. injection Hg' as <-.
  rewrite Hc in Hc'. injection Hc' as <-.
  rewrite He in He'. injection He' as <-.
  split; reflexivity.
Qed.

(** *** Dry runs *)

(** C6: in every run, write_output is invoked with a tree sequence if and
    only if the engine was called and its simulate call returned that tree
    sequence (not None), and the output goes where args.output says; when
    the simulate call returns None, write_output is not invoked at all. *)
Theorem write_output_iff_tree_sequence (species : Species) (args : Args) :
  (forall ts out,
     In (Write_output ts out) (trace (run species args)) <->
     out = output args /\
     exists e kw, In (Engine_simulate e kw) (trace (run species args)) /\
                  simulate e kw = Ok (Some ts))
  /\
  (forall e kw,
     In (Engine_simulate e kw) (trace (run species args)) ->
     simulate e kw = Ok None ->
     forall ts out, ~ In (Write_output ts out) (trace (run species args))).
Proof.
  assert (Hiff : forall ts out,
     In (Write_output ts out) (trace (run species args)) <->
     out = output args /\
     exists e kw, In (Engine_simulate e kw) (trace (run species args)) /\
                  simulate e kw = Ok (Some ts)).
  { intros ts out. split.
    - intros Hin.
      destruct (run_simulation_cases species args)
        as [(model & qc & sampled & contig & engine & Hs & Hg & Hc & He)|[Hnil _]].
      2:{ rewrite Hnil in Hin. destruct Hin. }
      destruct (run_simulation_reaches_engine species args model qc sampled contig
                  engine Hs Hg Hc He) as (rows & _ & Hrun).
      rewrite Hrun in Hin |- *.
      destruct (simulate engine (kwargs_of args model contig sampled))
        as [ts0|err] eqn:Hsim; cbn [trace fst] in Hin |- *.
      + apply in_app_or in Hin as [Hin|Hin].
        * apply In_opening_events in Hin
            as [(?&?&?&?&?&Hx)|[(?&Hx)|[(_&Hx)|Hx]]]; discriminate Hx.
        * apply In_closing_events in Hin
            as [Hx|[(t & -> & Hx)|[(_&Hx)|(?&_&Hx)]]]; try discriminate Hx.
          injection Hx as -> ->. split; [reflexivity |].
          exists engine, (kwargs_of args model contig sampled).
          split; [| exact Hsim].
          apply in_or_app. left. apply engine_in_opening_events.
      + apply In_opening_events in Hin
          as [(?&?&?&?&?&Hx)|[(?&Hx)|[(_&Hx)|Hx]]]; discriminate Hx.
    - intros (-> & e & kw & Hin & Hsim).
      apply engine_invoked_inv in Hin
        as (model & qc & sampled & contig & Hs & Hg & Hc & He & ->).
      destruct (run_simulation_reaches_engine species args model qc sampled contig
                  e Hs Hg Hc He) as (rows & _ & Hrun).
      rewrite Hrun, Hsim. cbn [trace fst].
      apply in_or_app. right. apply output_in_closing_events. }
  split; [exact Hiff |].
  intros e kw Hin Hnone ts out Hout.
  apply Hiff in Hout as (_ & e' & kw' & Hin' & Hsome).
  destruct (engine_event_unique species args e kw e' kw' Hin Hin') as [<- <-].
  congruence.
Qed.

(** *** Models that are not quality-controlled *)



(** *** The default model *)

(** C7: in every run that names no demographic model, the model used is the
    piecewise-constant convenience model built from the species' population
    size: one population, one initial configuration of that size with growth
    rate 0, no event; its generation time is the species' generation time and
    the species' population-size citations and then its generation-time
    citations are appended to its citations; the run counts it as
    qc-complete. The run uses this model: with more than one sample count it
    exits on the one sampling population of this model, before anything is
    logged; with at most one count, a resolved contig and a known engine it
    names this model in the summary, gives no not-QCed warning and calls the
    engine with this model and the samples drawn from it; and no call of the
    engine receives another model. *)
Theorem default_model_is_piecewise_constant (species : Species) (args : Args) :
  a_demographic_model args = None ->
  exists model,
    selected species args = ([], Ok (model, true)) /\
    model = extend_citations (generation_time_citations species)
              (extend_citations (population_size_citations species)
                 (set_generation_time (generation_time species)
                    (PiecewiseConstantSize (population_size species)))) /\
    length (populations model) = 1%nat /\
    num_sampling_populations model = 1%nat /\
    map (fun c => (initial_size c, growth_rate c)) (population_configurations model)
      = [(Some (population_size species), 0%float)] /\
    demographic_events model = [] /\
    dm_generation_time model = generation_time species /\
    dm_citations model
      = dm_citations (PiecewiseConstantSize (population_size species))
        ++ population_size_citations species ++ generation_time_citations species /\
    (forall e kw, In (Engine_simulate e kw) (trace (run species args)) ->
                  kw_demographic_model kw = model) /\
    (forall contig engine,
        (length (samples args) <= 1)%nat ->
        get_contig species (a_chromosome args) (a_genetic_map args)
          (length_multiplier args) = Ok contig ->
        get_engine engines (a_engine args) = Ok engine ->
        In (Engine_simulate engine
              (kwargs_of args model contig
                 (samples_from 0 (sampling_populations model) (samples args))))
           (trace (run species args)) /\
        (exists s, In (Log_summary s) (trace (run species args)) /\
                   sum_model_id s = dm_id model /\
                   sum_model_description s = dm_description model) /\
        ~ (exists mid, In (Warn_not_QCed mid) (trace (run species args)))) /\
    ((1 < length (samples args))%nat ->
     run species args
     = ([], Raise (SystemExit (argv0 ++ ": " ++ too_many_message 1)%string))).
Proof.
  intros Hnone.
  set (model := extend_citations (generation_time_citations species)
                  (extend_citations (population_size_citations species)
                     (set_generation_time (generation_time species)
                        (PiecewiseConstantSize (population_size species))))).
  assert (Hsel : selected species args = ([], Ok (model, true))).
  { unfold select_model. rewrite Hnone. reflexivity. }
  assert (Hs : outcome (selected species args) = Ok (model, true))
    by (rewrite Hsel; reflexivity).
  exists model. split; [exact Hsel |]. split; [reflexivity |].
  split; [reflexivity |]. split; [reflexivity |]. split; [reflexivity |].
  split; [reflexivity |]. split; [reflexivity |].
  split; [reflexivity |].
  split.
  { intros e kw Hin.
    apply engine_invoked_inv in Hin
      as (model' & qc & sampled & contig & Hs' & _ & _ & _ & ->).
    rewrite Hs in Hs'. injection Hs' as <- _. reflexivity. }
  split.
  { intros contig engine Hfit Hcontig Hengine.
    assert (Hg : get_samples model (samples args)
                 = Ok (samples_from 0 (sampling_populations model) (samples args))).
    { apply get_samples_fits. exact Hfit. }
    destruct (run_simulation_reaches_engine species args model true _ contig engine
                Hs Hg Hcontig Hengine) as (rows & _ & Hrun).
    rewrite Hrun.
    set (sampled := samples_from 0 (sampling_populations model) (samples args)).
    assert (Htrace : exists rest,
              trace match simulate engine (kwargs_of args model contig sampled) with
                    | Raise e =>
                        (opening_events species args model true contig engine sampled rows,
                         Raise e)
                    | Ok ts =>
                        (opening_events species args model true contig engine sampled rows
                         ++ closing_events _stdpopsim_citation species args model true
                              contig engine ts, Ok tt)
                    end
              = opening_events species args model true contig engine sampled rows ++ rest
              /\ forall mid, ~ In (Warn_not_QCed mid) rest).
    { destruct (simulate engine (kwargs_of args model contig sampled)) as [ts|err].
      - eexists. split; [reflexivity |].
        intros mid Hin. apply In_closing_events in Hin
          as [Hx|[(?&_&Hx)|[(_&Hx)|(?&_&Hx)]]]; discriminate Hx.
      - exists []. split; [cbn [trace fst]; rewrite app_nil_r; reflexivity |].
        intros mid []. }
    destruct Htrace as (rest & -> & Hrest).
    split; [apply in_or_app; left; apply engine_in_opening_events |].
    split.
    { eexists. split.
      - apply in_or_app. left. unfold opening_events. right. left. reflexivity.
      - split; reflexivity. }
    intros (mid & Hin). apply in_app_or in Hin as [Hin|Hin].
    - apply In_opening_events in Hin
        as [(?&?&?&?&?&Hx)|[(?&Hx)|[(Hq&_)|Hx]]]; discriminate.
    - exact (Hrest mid Hin). }
  intros Hmany. unfold run_simulation. rewrite Hsel. cbn [bind fst snd].
  change (num_sampling_populations model) with 1%nat.
  destruct (Nat.ltb_spec 1 (length (samples args))); [| lia].
  reflexivity.
Qed.

(** The contig the engine receives is the one contig resolution gives for
    the chromosome, the genetic map and the length multiplier of the command
    line. *)
Lemma run_simulation_contig species args e kw :
  In (Engine_simulate e kw) (trace (run species args)) ->
  get_contig species (a_chromosome args) (a_genetic_map args)
    (length_multiplier args) = Ok (kw_contig kw).
Proof.
  intros Hin.
  apply engine_invoked_inv in Hin as (m & qc & sampled & contig & _ & _ & Hc & _ & ->).
  exact Hc.
Qed.

End Runs.


(** ** The contig resolver *)

(** The length multiplier does not touch the rates: where contig resolution
    succeeds with one multiplier it succeeds with every other, and the two
    contigs have the chromosome's mutation rate, the same recombination
    rates and the same genetic map; the length is the binary64 product of
    the chromosome's length and the multiplier. *)
Lemma contig_rates_ignore_multiplier (species : Species)
    (chromosome gmap : option string) (m m' : float) (contig : Contig) :
  get_contig species chromosome gmap m = Ok contig ->
  exists chrom contig',
    get_chromosome (genome species) chromosome = Ok chrom /\
    get_contig species chromosome gmap m' = Ok contig' /\
    get_length (recombination_map contig)
      = (float_of_int (chr_length chrom) * m)%float /\
    contig_mutation_rate contig = mutation_rate chrom /\
    contig_mutation_rate contig' = mutation_rate chrom /\
    rate_profile (recombination_map contig')
      = rate_profile (recombination_map contig) /\
    genetic_map contig' = genetic_map contig.
Proof.
  intros H. unfold get_contig in *.
  destruct (get_chromosome (genome species) chromosome) as [chrom|err];
    cbn [rbind] in *; [| discriminate].
  destruct gmap as [gid|].
  - destruct (get_genetic_map species gid) as [gm|err];
      cbn [rbind] in *; [| discriminate].
    destruct (chromosome_rates gm (chr_id chrom)) as [profile|err];
      cbn [rbind] in *; [| discriminate].
    injection H as <-. eexists. eexists.
    split; [reflexivity |]. split; [reflexivity |]. repeat split.
  - injection H as <-. eexists. eexists.
    split; [reflexivity |]. split; [reflexivity |]. repeat split.
Qed.

(** The products are binary64 products: half of the odd length of chr7 is a
    float with a fractional part, and a length of 2^53 + 1 is not a float. *)
Example float_of_int_rounds :
  float_of_int 110682743 = 110682743%float /\
  (float_of_int 110682743 * 0.5)%float = 55341371.5%float /\
  (float_of_int 158534110 * 2)%float = 317068220%float /\
  (float_of_int 9007199254740993 * 1)%float = 9007199254740992%float.
Proof. vm_compute. repeat split. Qed.

(** ** The chromosome of a run *)

Lemma parser_chromosome {TreeSequence : Type} (engines : list (Engine TreeSequence))
    (default_engine : string) (species : Species) (cmd : CommandLine) (args : Args) :
  add_simulate_species_parser engines default_engine species cmd = Ok args ->
  (if (1 <? length (chromosomes (genome species)))%nat then
     c <- choice (map chr_id (chromosomes (genome species))) (opt_chromosome cmd);;
     match c with
     | Some _ => Ok c
     | None => Ok (head (map chr_id (chromosomes (genome species))))
     end
   else unrecognized (opt_chromosome cmd)) = Ok (a_chromosome args).
Proof.
  unfold add_simulate_species_parser. intros H.
  bind_inv H.
  injection H as <-. cbn [a_chromosome].
  reflexivity.
Qed.

(** C5: contig resolution that is given no chromosome id takes the species'
    first chromosome only if the genome has exactly one chromosome: it finds
    a chromosome exactly when the genome is that one chromosome, and a contig
    it returns is the contig of that chromosome, the first of the genome;
    for a genome with more than one chromosome it fails with
    UnknownChromosomeError whatever the genetic map and the multiplier, so
    an id is required. The command line passes no id on only for a genome
    with at most one chromosome. *)
Theorem chromosome_required_unless_single (species : Species)
    (gmap : option string) (m : float) :
  (forall c, get_chromosome (genome species) None = Ok c
             <-> chromosomes (genome species) = [c]) /\
  (forall contig,
      get_contig species None gmap m = Ok contig ->
      exists c, chromosomes (genome species) = [c] /\
                head (chromosomes (genome species)) = Some c /\
                get_contig species (Some (chr_id c)) gmap m = Ok contig) /\
  (forall c,
      chromosomes (genome species) = [c] ->
      get_contig species None None m
      = Ok {| recombination_map :=
                uniform_map (float_of_int (chr_length c) * m)%float
                  (recombination_rate c);
              contig_mutation_rate := mutation_rate c;
              genetic_map := None |}) /\
  ((1 < length (chromosomes (genome species)))%nat ->
   get_chromosome (genome species) None = Raise (UnknownChromosomeError None) /\
   get_contig species None gmap m = Raise (UnknownChromosomeError None)) /\
  (forall (TreeSequence : Type) (engines : list (Engine TreeSequence))
          (default_engine : string) (cmd : CommandLine) (args : Args),
      add_simulate_species_parser engines default_engine species cmd = Ok args ->
      a_chromosome args = None ->
      (length (chromosomes (genome species)) <= 1)%nat).
Proof.
  assert (Hnone : forall c, get_chromosome (genome species) None = Ok c
                            <-> chromosomes (genome species) = [c]).
  { intros c. unfold get_chromosome.
    destruct (chromosomes (genome species)) as [|c0 [|c1 rest]]; split; intros H;
      try discriminate H.
    - injection H as ->. reflexivity.
    - injection H as ->. reflexivity. }
  split; [exact Hnone |].
  split.
  { intros contig H. unfold get_contig in H.
    destruct (get_chromosome (genome species) None) as [c|err] eqn:Hc;
      cbn [rbind] in H; [| discriminate].
    pose proof (proj1 (Hnone c) eq_refl) as Hc'. clear Hc. rename Hc' into Hc.
    exists c. split; [exact Hc |].
    split; [rewrite Hc; reflexivity |].
    unfold get_contig, get_chromosome. rewrite Hc. cbn [find].
    rewrite String.eqb_refl. cbn [rbind]. exact H. }
  split.
  { intros c Hc. unfold get_contig, get_chromosome. rewrite Hc. reflexivity. }
  split.
  { intros Hlen.
    assert (Hraise : get_chromosome (genome species) None
                     = Raise (UnknownChromosomeError None)).
    { unfold get_chromosome.
      destruct (chromosomes (genome species)) as [|c0 [|c1 rest]];
        cbn in Hlen; try lia. reflexivity. }
    split; [exact Hraise |].
    unfold get_contig. rewrite Hraise. reflexivity. }
  intros TreeSequence engines default_engine cmd args Hparse Hargs.
  apply parser_chromosome in Hparse. rewrite Hargs in Hparse.
  destruct (1 <? length (chromosomes (genome species)))%nat eqn:Hlt.
  - exfalso. apply Nat.ltb_lt in Hlt.
    destruct (choice (map chr_id (chromosomes (genome species))) (opt_chromosome cmd))
      as [[cid|]|err]; cbn [rbind] in Hparse; try discriminate Hparse.
    destruct (chromosomes (genome species)); [cbn in Hlt; lia |].
    discriminate Hparse.
  - apply Nat.ltb_ge in Hlt. exact Hlt.
Qed.

(** ** The citation registry *)

Example first_seen_keeps_first_positions :
  first_seen [Some "a"; None; Some "b"; Some "a"; None; Some "b"; Some "c"]
  = [Some "a"; None; Some "b"; None; Some "c"].
Proof. reflexivity. Qed.

Lemma same_doi_true a c :
  same_doi a c = true <-> exists d, doi a = Some d /\ doi c = Some d.
Proof.
  unfold same_doi. destruct (doi a) as [x|], (doi c) as [y|]; split;
    try discriminate; try (intros (d & H1 & H2); discriminate).
  - intros H. apply String.eqb_eq in H. subst y. exists x. split; reflexivity.
  - intros (d & H1 & H2). injection H1 as ->. injection H2 as ->.
    apply String.eqb_refl.
Qed.

Lemma same_doi_false a c d :
  same_doi a c = false -> doi c = Some d -> doi a <> Some d.
Proof.
  intros Hf Hc Ha.
  assert (same_doi a c = true) by (apply same_doi_true; eauto).
  congruence.
Qed.

Lemma merge_into_dois acc c :
  map doi (merge_into acc c)
  = if is_repeat (map doi acc) (doi c) then map doi acc
    else map doi acc ++ [doi c].
Proof.
  induction acc as [|a acc IH]; cbn [merge_into map].
  - destruct (doi c); reflexivity.
  - destruct (same_doi a c) eqn:Hsame.
    + apply same_doi_true in Hsame as (d & Ha & Hc).
      rewrite Hc. cbn [is_repeat map add_reasons doi].
      rewrite bool_decide_eq_true_2; [reflexivity |].
      rewrite Ha. apply list_elem_of_here.
    + cbn [map]. rewrite IH.
      destruct (doi c) as [d|] eqn:Hc; cbn [is_repeat]; [| reflexivity].
      pose proof (same_doi_false a c d Hsame Hc) as Hne.
      destruct (bool_decide (Some d ∈ map doi acc)) eqn:Hin.
      * apply bool_decide_eq_true in Hin.
        rewrite bool_decide_eq_true_2; [reflexivity |].
        apply list_elem_of_further. exact Hin.
      * apply bool_decide_eq_false in Hin.
        rewrite bool_decide_eq_false_2; [reflexivity |].
        intros Hin'. apply elem_of_cons in Hin' as [Heq|Hin'];
          [congruence | contradiction].
Qed.

Lemma fold_merge_into_dois citations acc :
  map doi (fold_left merge_into citations acc)
  = map doi acc ++ first_seen_from (map doi acc) (map doi citations).
Proof.
  revert acc. induction citations as [|c citations IH]; intros acc;
    cbn [fold_left map first_seen_from].
  - rewrite app_nil_r. reflexivity.
  - rewrite IH, merge_into_dois.
    destruct (is_repeat (map doi acc) (doi c)); [reflexivity |].
    rewrite <- app_assoc. reflexivity.
Qed.

Lemma merge_into_group d acc c :
  List.filter (has_doi d) (merge_into acc c)
  = if has_doi d c then absorb (List.filter (has_doi d) acc) c
    else List.filter (has_doi d) acc.
Proof.
  induction acc as [|a acc IH]; cbn [merge_into List.filter].
  - destruct (has_doi d c); reflexivity.
  - destruct (same_doi a c) eqn:Hsame.
    + apply same_doi_true in Hsame as (x & Ha & Hc).
      assert (Hadd : has_doi d (add_reasons a c) = has_doi d a) by reflexivity.
      assert (Hac : has_doi d c = has_doi d a).
      { unfold has_doi. rewrite Ha, Hc. reflexivity. }
      cbn [List.filter]. rewrite Hadd, Hac.
      destruct (has_doi d a); reflexivity.
    + cbn [List.filter]. rewrite IH.
      destruct (has_doi d a) eqn:Ha; [| reflexivity].
      destruct (has_doi d c) eqn:Hc; [| reflexivity].
      exfalso. unfold has_doi in Ha, Hc.
      apply bool_decide_eq_true in Ha. apply bool_decide_eq_true in Hc.
      exact (same_doi_false a c d Hsame Hc Ha).
Qed.

Lemma fold_merge_into_group d citations acc :
  List.filter (has_doi d) (fold_left merge_into citations acc)
  = fold_left absorb (List.filter (has_doi d) citations)
      (List.filter (has_doi d) acc).
Proof.
  revert acc. induction citations as [|c citations IH]; intros acc;
    cbn [fold_left List.filter]; [reflexivity |].
  rewrite IH, merge_into_group.
  destruct (has_doi d c); reflexivity.
Qed.

Lemma absorb_all group a :
  fold_left absorb group [a]
  = [ {| doi := doi a; year := year a; author := author a;
         reasons := ⋃ (map reasons (a :: group)) |} ].
Proof.
  revert a. induction group as [|c group IH]; intros a; cbn [fold_left absorb].
  - destruct a as [d y au rs]. cbn. do 2 f_equal.
    symmetry. apply (right_id_L ∅ (∪)).
  - rewrite IH. cbn. do 2 f_equal.
    symmetry. apply (assoc_L (∪)).
Qed.

Lemma merge_into_no_doi acc c :
  List.filter no_doi (merge_into acc c)
  = List.filter no_doi acc ++ (if no_doi c then [c] else []).
Proof.
  induction acc as [|a acc IH]; cbn [merge_into List.filter app].
  - destruct (no_doi c); reflexivity.
  - destruct (same_doi a c) eqn:Hsame.
    + apply same_doi_true in Hsame as (x & Ha & Hc).
      assert (no_doi (add_reasons a c) = false) as Hadd
        by (unfold no_doi; cbn; rewrite Ha; reflexivity).
      assert (no_doi a = false) as Hna by (unfold no_doi; rewrite Ha; reflexivity).
      assert (no_doi c = false) as Hnc by (unfold no_doi; rewrite Hc; reflexivity).
      cbn [List.filter]. rewrite Hadd, Hna, Hnc, app_nil_r. reflexivity.
    + cbn [List.filter]. rewrite IH. destruct (no_doi a); reflexivity.
Qed.

Lemma fold_merge_into_no_doi citations acc :
  List.filter no_doi (fold_left merge_into citations acc)
  = List.filter no_doi acc ++ List.filter no_doi citations.
Proof.
  revert acc. induction citations as [|c citations IH]; intros acc;
    cbn [fold_left List.filter].
  - rewrite app_nil_r. reflexivity.
  - rewrite IH, merge_into_no_doi, <- app_assoc.
    destruct (no_doi c); reflexivity.
Qed.

Lemma merge_group d citations :
  List.filter (has_doi d) (merge citations)
  = match group_representative d citations with
    | Some rep => [rep]
    | None => []
    end.
Proof.
  unfold merge, group_representative. rewrite fold_merge_into_group.
  cbn [List.filter].
  destruct (List.filter (has_doi d) citations) as [|first others];
    [reflexivity |].
  cbn [fold_left absorb]. apply absorb_all.
Qed.

Lemma has_doi_true d c : has_doi d c = true <-> doi c = Some d.
Proof. unfold has_doi. apply bool_decide_eq_true. Qed.

Lemma group_representative_spec d citations :
  In (Some d) (map doi citations) ->
  exists rep,
    group_representative d citations = Some rep /\
    doi rep = Some d /\
    forall r, r ∈ reasons rep <->
              exists c, In c citations /\ doi c = Some d /\ r ∈ reasons c.
Proof.
  intros Hin. apply in_map_iff in Hin as (c0 & Hc0 & Hin0).
  assert (Hg : In c0 (List.filter (has_doi d) citations)).
  { apply filter_In. split; [exact Hin0 | apply has_doi_true; exact Hc0]. }
  unfold group_representative.
  destruct (List.filter (has_doi d) citations) as [|first others] eqn:Hf;
    [destruct Hg |].
  eexists. split; [reflexivity |]. cbn [doi reasons].
  assert (Hgroup : forall c, In c (first :: others) <->
                             In c citations /\ doi c = Some d).
  { intros c. rewrite <- Hf, filter_In, has_doi_true. reflexivity. }
  split; [apply Hgroup; left; reflexivity |].
  intros r. rewrite elem_of_union_list. split.
  - intros (X & HX & Hr). apply list_elem_of_In, in_map_iff in HX as (c & <- & Hc).
    apply Hgroup in Hc as [Hc Hd]. exists c. repeat split; assumption.
  - intros (c & Hc & Hd & Hr). exists (reasons c). split; [| exact Hr].
    apply list_elem_of_In, in_map_iff. exists c. split; [reflexivity |].
    apply Hgroup. split; assumption.
Qed.

(** C3: for every finite sequence of citations, merge groups the citations
    by doi: the dois of the result are the dois of the input in first-seen
    order, each doi once; for each doi the result has exactly one citation,
    the representative of the group, whose reasons are the union of the
    reasons of the citations of the input with that doi; the citations
    without doi are never merged, they are all kept as they are and in
    their order; and merge is a function of its input sequence. *)
Theorem merge_groups_by_doi (citations : list Citation) :
  map doi (merge citations) = first_seen (map doi citations) /\
  (forall d,
     List.filter (has_doi d) (merge citations)
     = match group_representative d citations with
       | Some rep => [rep]
       | None => []
       end) /\
  (forall d,
     In (Some d) (map doi citations) ->
     exists rep,
       List.filter (has_doi d) (merge citations) = [rep] /\
       doi rep = Some d /\
       forall r, r ∈ reasons rep <->
                 exists c, In c citations /\ doi c = Some d /\ r ∈ reasons c) /\
  List.filter no_doi (merge citations) = List.filter no_doi citations /\
  (forall citations', citations' = citations -> merge citations' = merge citations).
Proof.
  split; [apply (fold_merge_into_dois citations []) |].
  split; [intros d; apply merge_group |].
  split.
  - intros d Hin.
    destruct (group_representative_spec d citations Hin) as (rep & Hrep & Hd & Hr).
    exists rep. rewrite merge_group, Hrep. repeat split; try assumption; apply Hr.
  - split; [apply (fold_merge_into_no_doi citations []) |].
    intros citations' ->. reflexivity.
Qed.

(** * Runs for cattle *)

Lemma cattle_registered : BosTau.load [] = Ok [cattle].
Proof. vm_compute. reflexivity. Qed.

Lemma command_parsed model dry :
  model = iona \/ model = None ->
  add_simulate_species_parser [msprime_engine] "msprime" cattle (command model dry)
  = Ok (parsed model dry).
Proof. intros [-> | ->]; destruct dry; vm_compute; reflexivity. Qed.

(** C2 at the default model of cattle: two counts are one too many, the
    run ends before the engine; one count fits. *)
Lemma sample_counts_reconciled_witness :
  get_samples (PiecewiseConstantSize 62000) [1; 1]
    = Raise TooManySamplePopulationsError /\
  exists sampled,
    get_samples (PiecewiseConstantSize 62000) [3] = Ok sampled /\
    get_samples (PiecewiseConstantSize 62000) ([3] ++ repeat 0 0) = Ok sampled /\
    count_population 0 sampled = 3%nat.
Proof.
  destruct (sample_counts_reconciled unit own_citation "stdpopsim" [msprime_engine]
              (PiecewiseConstantSize 62000) [1; 1]) as [Hmany _].
  destruct (sample_counts_reconciled unit own_citation "stdpopsim" [msprime_engine]
              (PiecewiseConstantSize 62000) [3]) as [_ Hfits].
  split.
  - apply Hmany. vm_compute. lia.
  - destruct Hfits as (sampled & Hs & Hpad & Hcount); [vm_compute; lia |].
    exists sampled. split; [exact Hs |].
    split; [apply Hpad; vm_compute; lia |].
    apply (Hcount 0%nat). vm_compute. lia.
Defined.

(** C3 at the citations of cattle: the two citations of MacLeod et al.
    become one, cited for the generation time and the population size. *)
Lemma merge_groups_by_doi_witness :
  exists rep,
    List.filter (has_doi "https://doi.org/10.1093/molbev/mst125")
      (merge [BosTau._gen_time_citation; BosTau._assembly_citation;
              BosTau._pop_size_citation]) = [rep] /\
    doi rep = Some "https://doi.org/10.1093/molbev/mst125" /\
    GEN_TIME ∈ reasons rep /\ POP_SIZE ∈ reasons rep.
Proof.
  destruct (merge_groups_by_doi
              [BosTau._gen_time_citation; BosTau._assembly_citation;
               BosTau._pop_size_citation]) as (_ & _ & Hgroup & _).
  destruct (Hgroup "https://doi.org/10.1093/molbev/mst125")
    as (rep & Hrep & Hdoi & Hreasons).
  { cbn. left. reflexivity. }
  exists rep. split; [exact Hrep |]. split; [exact Hdoi |].
  split; apply Hreasons.
  - exists BosTau._gen_time_citation.
    split; [left; reflexivity |]. split; [reflexivity |].
    unfold BosTau._gen_time_citation. cbn [reasons].
    apply elem_of_singleton_2. reflexivity.
  - exists BosTau._pop_size_citation.
    split; [right; right; left; reflexivity |]. split; [reflexivity |].
    unfold BosTau._pop_size_citation. cbn [reasons].
    apply elem_of_singleton_2. reflexivity.
Defined.



(** C5 at cattle, whose genome has 30 chromosomes, and at a genome of one
    chromosome. *)
Lemma chromosome_required_unless_single_witness :
  length (chromosomes (genome cattle)) = 30%nat /\
  get_contig cattle None None 1 = Raise (UnknownChromosomeError None) /\
  get_chromosome (genome single_chromosome_species) None = Ok lone_chromosome.
Proof.
  destruct (chromosome_required_unless_single cattle None 1)
    as (_ & _ & _ & Hmany & _).
  destruct (chromosome_required_unless_single single_chromosome_species None 1)
    as (Hone & _).
  split; [vm_compute; reflexivity |].
  split; [apply Hmany; vm_compute; lia |].
  apply Hone. reflexivity.
Defined.

(** C6 at a dry run for cattle: the engine returns None, nothing is written. *)
Lemma write_output_iff_tree_sequence_witness :
  engine_invoked (trace (cattle_run None true)) /\
  ~ (exists ts out, In (Write_output ts out) (trace (cattle_run None true))).
Proof.
  assert (Hengine : exists e kw,
            In (Engine_simulate e kw) (trace (cattle_run None true)) /\
            simulate e kw = Ok None).
  { eexists. eexists. split; [vm_compute; find_event | vm_compute; reflexivity]. }
  destruct Hengine as (e & kw & Hin & Hnone).
  split; [exists e, kw; exact Hin |].
  intros (ts & out & Hout).
  destruct (write_output_iff_tree_sequence unit own_citation "stdpopsim" [msprime_engine]
              cattle (parsed None true)) as [_ Hdry].
  exact (Hdry e kw Hin Hnone ts out Hout).
Defined.

(** C7 at cattle: the run of [stdpopsim BosTau 10] calls the engine with the
    model of constant size 62000 and generation time 5, with ten samples of
    its population. *)
Lemma default_model_is_piecewise_constant_witness :
  exists model kw,
    In (Engine_simulate msprime_engine kw) (trace (cattle_run None false)) /\
    kw_demographic_model kw = model /\
    length (kw_samples kw) = 10%nat /\
    map (fun c => (initial_size c, growth_rate c)) (population_configurations model)
      = [(Some 62000, 0%float)] /\
    demographic_events model = [] /\
    dm_generation_time model = 5 /\
    dm_citations model = [BosTau._pop_size_citation; BosTau._gen_time_citation].
Proof.
  destruct (default_model_is_piecewise_constant unit own_citation "stdpopsim" [msprime_engine]
              cattle (parsed None false))
    as (model & _ & Hmodel & _ & _ & Hcfg & Hev & Hgen & Hcit & _ & Hrun & _).
  - reflexivity.
  - assert (Hcontig : exists contig,
              get_contig cattle (a_chromosome (parsed None false))
                (a_genetic_map (parsed None false))
                (length_multiplier (parsed None false)) = Ok contig).
    { eexists. vm_compute. reflexivity. }
    destruct Hcontig as (contig & Hcontig).
    destruct (Hrun contig msprime_engine) as (Hin & _).
    + cbn. lia.
    + exact Hcontig.
    + reflexivity.
    + exists model. eexists. split; [exact Hin |].
      split; [reflexivity |].
      split; [rewrite Hmodel; vm_compute; reflexivity |].
      split; [exact Hcfg |].
      split; [exact Hev |]. split; [exact Hgen | exact Hcit].
Defined.

(** * More properties of the command line *)

(** ** The tally of [write_simulation_summary] *)

Lemma py_index_indexable n i :
  - Z.of_nat n <= i < Z.of_nat n ->
  exists k, py_index n i = Ok k /\ (k < n)%nat /\
            forall p, (p < n)%nat ->
              (k = p <-> i = Z.of_nat p \/ i = Z.of_nat p - Z.of_nat n).
Proof.
  intros H. unfold py_index.
  destruct (Z.leb_spec 0 i) as [Hpos|Hneg]; cbn [andb].
  - destruct (Z.ltb_spec i (Z.of_nat n)); [| lia].
    exists (Z.to_nat i). split; [reflexivity |]. split; [lia |].
    intros p Hp. lia.
  - destruct (Z.leb_spec (- Z.of_nat n) i); [| lia].
    destruct (Z.ltb_spec i 0); [| lia]. cbn [andb].
    exists (Z.to_nat (Z.of_nat n + i)). split; [reflexivity |]. split; [lia |].
    intros p Hp. lia.
Qed.

Lemma py_index_out_of_range n i :
  ~ (- Z.of_nat n <= i < Z.of_nat n) -> py_index n i = Raise IndexError.
Proof.
  intros H. unfold py_index.
  destruct (Z.leb_spec 0 i); destruct (Z.ltb_spec i (Z.of_nat n));
    destruct (Z.leb_spec (- Z.of_nat n) i); destruct (Z.ltb_spec i 0);
    cbn [andb]; try reflexivity; lia.
Qed.

Lemma counted_at_spec n p s :
  counted_at n p s = true <->
  population s = Z.of_nat p \/ population s = Z.of_nat p - Z.of_nat n.
Proof.
  unfold counted_at. rewrite orb_true_iff, !Z.eqb_eq. reflexivity.
Qed.

Lemma increment_indexable sample_counts i :
  - Z.of_nat (length sample_counts) <= i < Z.of_nat (length sample_counts) ->
  exists k c,
    increment sample_counts i = Ok (<[k := c + 1]> sample_counts) /\
    sample_counts !! k = Some c /\
    forall p, (p < length sample_counts)%nat ->
      (k = p <-> i = Z.of_nat p \/ i = Z.of_nat p - Z.of_nat (length sample_counts)).
Proof.
  intros H.
  destruct (py_index_indexable (length sample_counts) i H) as (k & Hk & Hlt & Hp).
  destruct (sample_counts !! k) as [c|] eqn:Hc;
    [| apply lookup_ge_None in Hc; lia].
  exists k, c. unfold increment, getitem. rewrite Hk. cbn [rbind].
  rewrite Hc. cbn [rbind]. repeat split; try assumption; apply Hp; assumption.
Qed.

Lemma increment_out_of_range sample_counts i :
  ~ (- Z.of_nat (length sample_counts) <= i < Z.of_nat (length sample_counts)) ->
  increment sample_counts i = Raise IndexError.
Proof.
  intros H. unfold increment. rewrite py_index_out_of_range by exact H.
  reflexivity.
Qed.

(** The tally adds to each counter the number of samples counted there. *)
Lemma tally_counts sample_counts sampled counts' :
  tally sample_counts sampled = Ok counts' ->
  length counts' = length sample_counts /\
  forall p c, sample_counts !! p = Some c ->
    counts' !! p = Some (c + Z.of_nat (count_at (length sample_counts) p sampled)).
Proof.
  revert sample_counts.
  induction sampled as [|s rest IH]; intros sample_counts H; cbn [tally] in H.
  - injection H as <-. split; [reflexivity |].
    intros p c Hc. unfold count_at. cbn. rewrite Z.add_0_r. exact Hc.
  - destruct (increment sample_counts (population s)) as [c1|e] eqn:Hinc;
      cbn [rbind] in H; [| discriminate].
    assert (Hrange : - Z.of_nat (length sample_counts) <= population s
                     < Z.of_nat (length sample_counts)).
    { destruct (Z_le_dec (- Z.of_nat (length sample_counts)) (population s));
        destruct (Z_lt_dec (population s) (Z.of_nat (length sample_counts)));
        try (split; assumption);
        rewrite increment_out_of_range in Hinc by lia; discriminate. }
    destruct (increment_indexable sample_counts (population s) Hrange)
      as (k & c0 & Hinc' & Hk & Hiff).
    rewrite Hinc in Hinc'. injection Hinc' as ->.
    destruct (IH _ H) as (Hlen & Hcounts).
    rewrite length_insert in Hlen, Hcounts.
    split; [exact Hlen |].
    intros p c Hc.
    assert (Hp : (p < length sample_counts)%nat)
      by (apply lookup_lt_Some in Hc; exact Hc).
    unfold count_at. cbn [List.filter].
    destruct (decide (k = p)) as [->|Hne].
    + rewrite (Hcounts p (c0 + 1)).
      * replace (counted_at (length sample_counts) p s) with true.
        { cbn [length]. rewrite Hk in Hc. injection Hc as ->.
          unfold count_at. f_equal. lia. }
        symmetry. apply counted_at_spec. apply Hiff; [exact Hp | reflexivity].
      * apply list_lookup_insert_eq. exact Hp.
    + rewrite (Hcounts p c).
      * replace (counted_at (length sample_counts) p s) with false; [reflexivity |].
        symmetry. apply not_true_is_false. intros Ht.
        apply counted_at_spec in Ht. apply Hiff in Ht; [| exact Hp]. contradiction.
      * rewrite list_lookup_insert_ne by exact Hne. exact Hc.
Qed.

Lemma tally_indexable sample_counts sampled :
  Forall (indexable (length sample_counts)) sampled ->
  exists counts', tally sample_counts sampled = Ok counts'.
Proof.
  revert sample_counts. induction sampled as [|s rest IH]; intros sample_counts H.
  - eexists. reflexivity.
  - apply Forall_cons in H as [Hs Hrest].
    destruct (increment_indexable sample_counts (population s) Hs)
      as (k & c & Hinc & _ & _).
    cbn [tally]. rewrite Hinc. cbn [rbind]. apply IH.
    rewrite length_insert. exact Hrest.
Qed.

Lemma tally_not_indexable sample_counts sampled :
  Exists (fun s => ~ indexable (length sample_counts) s) sampled ->
  tally sample_counts sampled = Raise IndexError.
Proof.
  revert sample_counts. induction sampled as [|s rest IH]; intros sample_counts H.
  - inversion H.
  - cbn [tally].
    destruct (Z_le_dec (- Z.of_nat (length sample_counts)) (population s)) as [Hlo|Hlo];
      [destruct (Z_lt_dec (population s) (Z.of_nat (length sample_counts))) as [Hhi|Hhi] |].
    + destruct (increment_indexable sample_counts (population s) (conj Hlo Hhi))
        as (k & c & Hinc & _ & _).
      rewrite Hinc. cbn [rbind]. apply IH. rewrite length_insert.
      inversion H as [? ? Hs|? ? Hrest]; subst; [| exact Hrest].
      exfalso. apply Hs. split; assumption.
    + rewrite increment_out_of_range by lia. reflexivity.
    + rewrite increment_out_of_range by lia. reflexivity.
Qed.

Lemma lookup_repeat_lt {A : Type} (x : A) n p :
  (p < n)%nat -> repeat x n !! p = Some x.
Proof.
  revert p. induction n as [|n IH]; intros p Hp; [lia |].
  destruct p as [|p]; cbn; [reflexivity | apply IH; lia].
Qed.

Lemma rows_of_counts m (counts : list Z) :
  length counts = num_sampling_populations m ->
  exists rows,
    mapM (fun p : nat =>
            pop <- getitem (populations m) (Z.of_nat p);;
            c <- getitem counts (Z.of_nat p);;
            Ok (pop_id pop, c, sampling_time pop))
         (seq 0 (num_sampling_populations m)) = Ok rows /\
    length rows = num_sampling_populations m.
Proof.
  intros Hlen.
  match goal with |- exists rows, mapM ?f ?l = _ /\ _ =>
    destruct (mapM_Ok f l) as (rows & Hrows & Hl) end.
  - intros p Hp. apply in_seq in Hp.
    pose proof (num_sampling_populations_le m) as Hle.
    destruct (getitem_valid (populations m) (Z.of_nat p)) as (pop & Hpop & _); [lia |].
    destruct (getitem_valid counts (Z.of_nat p)) as (c & Hc & _); [lia |].
    rewrite Hpop. cbn [rbind]. rewrite Hc. cbn [rbind]. eexists. reflexivity.
  - exists rows. split; [exact Hrows |]. rewrite Hl. apply length_seq.
Qed.

Lemma summary_rows_inv m sampled rows :
  summary_rows m sampled = Ok rows ->
  exists counts,
    tally (repeat 0 (num_sampling_populations m)) sampled = Ok counts /\
    length counts = num_sampling_populations m /\
    Forall2 (fun (p : nat) (row : string * Z * Z) =>
               exists pop, populations m !! p = Some pop /\
                           counts !! p = Some (snd (fst row)) /\
                           row = (pop_id pop, snd (fst row), sampling_time pop))
            (seq 0 (num_sampling_populations m)) rows.
Proof.
  unfold summary_rows. intros H.
  destruct (tally _ sampled) as [counts|e] eqn:Htally; cbn [rbind] in H;
    [| discriminate].
  exists counts. split; [reflexivity |].
  split.
  { apply tally_counts in Htally as [Hlen _]. rewrite Hlen. apply repeat_length. }
  apply mapM_Forall2 in H.
  eapply Forall2_impl; [exact H |].
  intros p row Hrow. cbn beta in Hrow.
  destruct (getitem (populations m) (Z.of_nat p)) as [pop|e] eqn:Hpop;
    cbn [rbind] in Hrow; [| discriminate].
  destruct (getitem counts (Z.of_nat p)) as [c|e] eqn:Hc;
    cbn [rbind] in Hrow; [| discriminate].
  injection Hrow as <-. exists pop. cbn [fst snd].
  split; [apply getitem_of_nat; exact Hpop |].
  split; [apply getitem_of_nat; exact Hc | reflexivity].
Qed.

(** X1: when the summary is produced, the row of index p shows the name and
    the sampling time of the population at index p of the model and, as its
    count, the number of samples whose population index is p or, read from
    the end as Python does for a negative index, p minus the number of
    sampling populations. *)
Theorem summary_rows_count_samples (m : DemographicModel)
    (sampled : list Sample) (rows : list (string * Z * Z)) :
  summary_rows m sampled = Ok rows ->
  Forall2 (fun (p : nat) (row : string * Z * Z) =>
             exists pop,
               populations m !! p = Some pop /\
               row = (pop_id pop,
                      Z.of_nat (count_at (num_sampling_populations m) p sampled),
                      sampling_time pop))
          (seq 0 (num_sampling_populations m)) rows.
Proof.
  intros H.
  destruct (summary_rows_inv m sampled rows H) as (counts & Htally & Hlen & Hrows).
  apply tally_counts in Htally as [_ Hcounts].
  rewrite repeat_length in Hcounts.
  apply Forall2_same_length_lookup_2.
  { apply Forall2_length in Hrows. exact Hrows. }
  intros i p row Hp Hrow.
  destruct (Forall2_lookup_lr _ _ _ _ _ _ Hrows Hp Hrow) as (pop & Hpop & Hc & Heq).
  exists pop. split; [exact Hpop |].
  assert (Hlt : (p < num_sampling_populations m)%nat).
  { apply list_elem_of_lookup_2, list_elem_of_In, in_seq in Hp. lia. }
  rewrite (Hcounts p 0 (lookup_repeat_lt 0 _ p Hlt)) in Hc.
  injection Hc as Hc. rewrite Heq. rewrite <- Hc. reflexivity.
Qed.

Lemma summary_rows_count_samples_witness :
  Forall2 (fun (p : nat) (row : string * Z * Z) =>
             exists pop,
               populations (PiecewiseConstantSize 100) !! p = Some pop /\
               row = (pop_id pop,
                      Z.of_nat (count_at
                                  (num_sampling_populations (PiecewiseConstantSize 100)) p
                                  [ {| population := 0; sample_time := 0 |};
                                    {| population := -1; sample_time := 0 |} ]),
                      sampling_time pop))
          (seq 0 (num_sampling_populations (PiecewiseConstantSize 100)))
          [("pop_0", 2, 0)].
Proof.
  apply (summary_rows_count_samples (PiecewiseConstantSize 100)
           [ {| population := 0; sample_time := 0 |};
             {| population := -1; sample_time := 0 |} ]).
  vm_compute. reflexivity.
Defined.

(** X2: write_simulation_summary logs the summary, once and with one row
    per sampling population, and returns when every sample's population
    index is an index, in Python's sense, of a list with one entry per
    sampling population (from minus that number to that number minus one);
    a sample outside this range makes its tally, and so itself, raise
    IndexError, and then it logs nothing. *)
Theorem summary_rows_fails_out_of_range {TreeSequence : Type}
    (engine : Engine TreeSequence) (m : DemographicModel) (contig : Contig)
    (sampled : list Sample) (seed : option Z) :
  (Forall (indexable (num_sampling_populations m)) sampled ->
   exists rows s,
     summary_rows m sampled = Ok rows /\
     length rows = num_sampling_populations m /\
     write_simulation_summary TreeSequence engine m contig sampled seed
     = ([Log_summary s], Ok tt) /\
     sum_rows s = rows /\ sum_model_id s = dm_id m /\ sum_seed s = seed) /\
  (Exists (fun s => ~ indexable (num_sampling_populations m) s) sampled ->
   summary_rows m sampled = Raise IndexError /\
   write_simulation_summary TreeSequence engine m contig sampled seed
   = ([], Raise IndexError)).
Proof.
  split.
  - intros H.
    destruct (tally_indexable (repeat 0 (num_sampling_populations m)) sampled)
      as (counts & Hcounts).
    { rewrite repeat_length. exact H. }
    assert (Hrows : exists rows, summary_rows m sampled = Ok rows /\
                                 length rows = num_sampling_populations m).
    { unfold summary_rows. rewrite Hcounts. cbn [rbind].
      apply rows_of_counts.
      apply tally_counts in Hcounts as [Hlen _]. rewrite Hlen. apply repeat_length. }
    destruct Hrows as (rows & Hrows & Hlen).
    exists rows. eexists. split; [exact Hrows |]. split; [exact Hlen |].
    unfold write_simulation_summary. rewrite Hrows.
    split; [reflexivity |]. repeat split.
  - intros H.
    assert (Hrows : summary_rows m sampled = Raise IndexError).
    { unfold summary_rows.
      rewrite tally_not_indexable; [reflexivity |].
      rewrite repeat_length. exact H. }
    split; [exact Hrows |].
    unfold write_simulation_summary. rewrite Hrows. reflexivity.
Qed.

Lemma summary_rows_fails_out_of_range_witness :
  (exists s,
     write_simulation_summary unit msprime_engine (PiecewiseConstantSize 100)
       (uniform_contig 1000 0) [ {| population := -1; sample_time := 0 |} ] None
     = ([Log_summary s], Ok tt) /\
     length (sum_rows s) = 1%nat) /\
  write_simulation_summary unit msprime_engine (PiecewiseConstantSize 100)
    (uniform_contig 1000 0)
    [ {| population := 0; sample_time := 0 |};
      {| population := 1; sample_time := 0 |} ] None
  = ([], Raise IndexError).
Proof.
  split.
  - destruct (summary_rows_fails_out_of_range msprime_engine (PiecewiseConstantSize 100)
                (uniform_contig 1000 0) [ {| population := -1; sample_time := 0 |} ] None)
      as [Hok _].
    destruct Hok as (rows & s & _ & Hlen & Hrun & Hrows & _).
    + repeat constructor; vm_compute; discriminate.
    + exists s. split; [exact Hrun |]. rewrite Hrows. exact Hlen.
  - apply (summary_rows_fails_out_of_range msprime_engine (PiecewiseConstantSize 100)).
    apply Exists_cons_tl. apply Exists_cons_hd.
    intros [_ H]. vm_compute in H. discriminate H.
Defined.

Lemma sum_insert_incr (l : list Z) k c :
  l !! k = Some c ->
  fold_right Z.add 0 (<[k := c + 1]> l) = fold_right Z.add 0 l + 1.
Proof.
  revert k. induction l as [|x l IH]; intros k H; [discriminate |].
  destruct k as [|k].
  - cbn in H. injection H as ->. cbn. lia.
  - change (<[S k := c + 1]> (x :: l)) with (x :: <[k := c + 1]> l).
    cbn [fold_right]. rewrite (IH k H). lia.
Qed.

Lemma sum_repeat_0 n : fold_right Z.add 0 (repeat 0 n) = 0.
Proof. induction n as [|n IH]; cbn [repeat fold_right]; lia. Qed.

Lemma tally_sum sample_counts sampled counts' :
  tally sample_counts sampled = Ok counts' ->
  fold_right Z.add 0 counts'
  = fold_right Z.add 0 sample_counts + Z.of_nat (length sampled).
Proof.
  revert sample_counts.
  induction sampled as [|s rest IH]; intros sample_counts H; cbn [tally] in H.
  - injection H as <-. cbn [length]. lia.
  - destruct (increment sample_counts (population s)) as [c1|e] eqn:Hinc;
      cbn [rbind] in H; [| discriminate].
    unfold increment, getitem in Hinc.
    destruct (py_index (length sample_counts) (population s)) as [k|e];
      cbn [rbind] in Hinc; [| discriminate].
    destruct (sample_counts !! k) as [c|] eqn:Hk; cbn [rbind] in Hinc;
      [| discriminate].
    injection Hinc as <-.
    rewrite (IH _ H), (sum_insert_incr _ _ _ Hk). cbn [length]. lia.
Qed.

Lemma Forall2_seq_lookup {B : Type} (f : B -> Z) (l : list Z) j n rows :
  Forall2 (fun (p : nat) (row : B) => l !! p = Some (f row)) (seq j n) rows ->
  map f rows = take n (drop j l).
Proof.
  revert j rows. induction n as [|n IH]; intros j rows H; cbn [seq] in H.
  - apply Forall2_nil_inv_l in H as ->. reflexivity.
  - apply Forall2_cons_inv_l in H as (row & rows' & Hrow & Hrest & ->).
    cbn [map]. rewrite (IH _ _ Hrest).
    rewrite (drop_S _ _ _ Hrow). reflexivity.
Qed.

(** X3: when the summary is produced, the counts of its rows add up to the
    number of samples: every sample is counted in exactly one row. *)
Theorem summary_rows_total (m : DemographicModel) (sampled : list Sample)
    (rows : list (string * Z * Z)) :
  summary_rows m sampled = Ok rows ->
  fold_right Z.add 0 (map (fun row => snd (fst row)) rows)
  = Z.of_nat (length sampled).
Proof.
  intros H.
  destruct (summary_rows_inv m sampled rows H) as (counts & Htally & Hlen & Hrows).
  assert (Hmap : map (fun row : string * Z * Z => snd (fst row)) rows = counts).
  { rewrite (Forall2_seq_lookup _ counts 0 (num_sampling_populations m)).
    - rewrite drop_0, <- Hlen. apply firstn_all.
    - eapply Forall2_impl; [exact Hrows |].
      intros p row (pop & _ & Hc & _). exact Hc. }
  rewrite Hmap, (tally_sum _ _ _ Htally), sum_repeat_0. lia.
Qed.

Lemma summary_rows_total_witness :
  fold_right Z.add 0 (map (fun row : string * Z * Z => snd (fst row)) [("pop_0", 2, 0)])
  = Z.of_nat (length [ {| population := 0; sample_time := 0 |};
                       {| population := -1; sample_time := 0 |} ]).
Proof.
  apply (summary_rows_total (PiecewiseConstantSize 100)).
  vm_compute. reflexivity.
Defined.

(** ** What a run writes *)

Lemma count_at_nonnegative n p sampled :
  (p < n)%nat ->
  Forall (fun s => 0 <= population s) sampled ->
  count_at n p sampled = count_population (Z.of_nat p) sampled.
Proof.
  intros Hp H. unfold count_at, count_population.
  induction H as [|s l Hs _ IH]; [reflexivity |].
  cbn [List.filter]. unfold counted_at at 1.
  destruct (Z.eqb_spec (population s) (Z.of_nat p - Z.of_nat n)); [lia |].
  rewrite orb_false_r.
  destruct (population s =? Z.of_nat p); cbn [length]; rewrite IH; reflexivity.
Qed.

Section RunEffects.

Variable TreeSequence : Type.
Variable _stdpopsim_citation : Citation.
Variable argv0 : string.
Variable engines : list (Engine TreeSequence).

#[local] Abbreviation run := (run_simulation _stdpopsim_citation argv0 engines).
#[local] Abbreviation selected := (select_model TreeSequence argv0).
#[local] Abbreviation citations_of := (get_citations _stdpopsim_citation).

Lemma summary_in_opening_events species args model qc contig
    (engine : Engine TreeSequence) sampled rows s :
  In (Log_summary s) (opening_events species args model qc contig engine sampled rows) ->
  sum_rows s = rows /\ sum_model_id s = dm_id model /\ sum_seed s = seed args.
Proof.
  unfold opening_events. destruct qc; cbn [app In]; intros H;
    repeat match type of H with
           | _ \/ _ => destruct H as [H|H]
           | False => destruct H
           end;
    try discriminate H; injection H as <-; repeat split.
Qed.

(** X4: the summary a run logs has one row per sampling population of the
    model, and the row of index p shows the p-th sample count of the command
    line, 0 when that count is left out (or negative). *)
Theorem summary_shows_requested_counts (species : Species) (args : Args)
    (s : Summary) :
  In (Log_summary s) (trace (run species args)) ->
  exists model qc,
    outcome (selected species args) = Ok (model, qc) /\
    Forall2 (fun (p : nat) (row : string * Z * Z) =>
               exists pop,
                 populations model !! p = Some pop /\
                 row = (pop_id pop,
                        Z.of_nat (Z.to_nat (nth p (samples args) 0)),
                        sampling_time pop))
            (seq 0 (num_sampling_populations model)) (sum_rows s).
Proof.
  intros Hin.
  destruct (run_simulation_cases TreeSequence _stdpopsim_citation argv0 engines
              species args)
    as [(model & qc & sampled & contig & engine & Hs & Hg & Hc & He)|[Hnil _]].
  2:{ rewrite Hnil in Hin. destruct Hin. }
  destruct (run_simulation_reaches_engine TreeSequence _stdpopsim_citation argv0
              engines species args model qc sampled contig engine Hs Hg Hc He)
    as (rows & Hrows & Hrun).
  assert (Hsum : sum_rows s = rows).
  { rewrite Hrun in Hin.
    destruct (simulate engine (kwargs_of args model contig sampled)) as [ts|err];
      cbn [trace fst] in Hin.
    - apply in_app_or in Hin as [Hin|Hin].
      + apply summary_in_opening_events in Hin as [Hin _]. exact Hin.
      + apply In_closing_events in Hin
          as [Hx|[(?&_&Hx)|[(_&Hx)|(?&_&Hx)]]]; discriminate Hx.
    - apply summary_in_opening_events in Hin as [Hin _]. exact Hin. }
  exists model, qc. split; [exact Hs |].
  rewrite Hsum.
  pose proof (summary_rows_count_samples model sampled rows Hrows) as Hcount.
  pose proof (get_samples_population_range model (samples args) sampled Hg) as Hrange.
  apply get_samples_Ok_inv in Hg as [_ Hsampled].
  apply Forall2_same_length_lookup_2.
  { apply Forall2_length in Hcount. exact Hcount. }
  intros i p row Hp Hrow.
  destruct (Forall2_lookup_lr _ _ _ _ _ _ Hcount Hp Hrow) as (pop & Hpop & Heq).
  exists pop. split; [exact Hpop |].
  assert (Hlt : (p < num_sampling_populations model)%nat).
  { apply list_elem_of_lookup_2, list_elem_of_In, in_seq in Hp. lia. }
  rewrite Heq. do 2 f_equal.
  rewrite count_at_nonnegative.
  - rewrite Hsampled.
    rewrite <- (samples_from_count 0 (sampling_populations model) (samples args) p Hlt).
    reflexivity.
  - exact Hlt.
  - eapply List.Forall_impl; [| exact Hrange]. intros x Hx. cbn beta in Hx. lia.
Qed.

(** X5: write_bibtex is called only in a run that was given a file with -b
    and only after the engine has returned; it is called with that file and
    with the merged citations of the engine, the model, the contig and the
    species of the run. *)
Theorem bibtex_only_after_engine (species : Species) (args : Args)
    (cs : list Citation) (file : string) :
  In (Write_bibtex cs file) (trace (run species args)) ->
  bibtex_file args = Some file /\
  exists e kw ts,
    In (Engine_simulate e kw) (trace (run species args)) /\
    simulate e kw = Ok ts /\
    cs = citations_of e (kw_demographic_model kw) (kw_contig kw) species.
Proof.
  intros Hin.
  destruct (run_simulation_cases TreeSequence _stdpopsim_citation argv0 engines
              species args)
    as [(model & qc & sampled & contig & engine & Hs & Hg & Hc & He)|[Hnil _]].
  2:{ rewrite Hnil in Hin. destruct Hin. }
  destruct (run_simulation_reaches_engine TreeSequence _stdpopsim_citation argv0
              engines species args model qc sampled contig engine Hs Hg Hc He)
    as (rows & _ & Hrun).
  rewrite Hrun in Hin |- *.
  destruct (simulate engine (kwargs_of args model contig sampled))
    as [ts0|err] eqn:Hsim; cbn [trace fst] in Hin |- *.
  - apply in_app_or in Hin as [Hin|Hin].
    + apply In_opening_events in Hin
        as [(?&?&?&?&?&Hx)|[(?&Hx)|[(_&Hx)|Hx]]]; discriminate Hx.
    + apply In_closing_events in Hin
        as [Hx|[(?&_&Hx)|[(_&Hx)|(f&Hf&Hx)]]]; try discriminate Hx.
      injection Hx as -> ->. split; [exact Hf |].
      exists engine, (kwargs_of args model contig sampled), ts0.
      split; [apply in_or_app; left; apply engine_in_opening_events |].
      split; [exact Hsim | reflexivity].
  - apply In_opening_events in Hin
      as [(?&?&?&?&?&Hx)|[(?&Hx)|[(_&Hx)|Hx]]]; discriminate Hx.
Qed.

Lemma opening_events_before_engine species args model qc contig
    (engine : Engine TreeSequence) sampled rows :
  exists pre s,
    opening_events species args model qc contig engine sampled rows
      = pre ++ [Engine_simulate engine (kwargs_of args model contig sampled)] /\
    In (Log_summary s) pre /\
    Forall (fun ev => event_level ev <> None) pre.
Proof.
  unfold opening_events. rewrite app_assoc.
  eexists. eexists. split; [reflexivity |].
  split; [apply in_or_app; left; right; left; reflexivity |].
  destruct qc; cbn [app]; repeat constructor; discriminate.
Qed.

Lemma closing_events_after_engine species args model qc contig
    (engine : Engine TreeSequence) ts :
  Forall (fun ev => after_engine ev = true)
         (closing_events _stdpopsim_citation species args model qc contig engine ts).
Proof.
  unfold closing_events.
  destruct ts, qc, (bibtex_file args); cbn [app]; repeat constructor.
Qed.

(** X6: a run that ends without an error has called the engine, and the
    engine returned; when the engine raises an error, the run raises the
    same error and nothing that follows the engine happens: no resource
    usage is logged, no output, no citation request and no bibtex file is
    written. *)
Theorem run_outcome (species : Species) (args : Args) :
  (outcome (run species args) = Ok tt ->
   exists e kw ts, In (Engine_simulate e kw) (trace (run species args)) /\
                   simulate e kw = Ok ts) /\
  (forall e kw err,
     In (Engine_simulate e kw) (trace (run species args)) ->
     simulate e kw = Raise err ->
     outcome (run species args) = Raise err /\
     Forall (fun ev => after_engine ev = false) (trace (run species args))).
Proof.
  destruct (run_simulation_cases TreeSequence _stdpopsim_citation argv0 engines
              species args)
    as [(model & qc & sampled & contig & engine & Hs & Hg & Hc & He)|[Hnil (err0 & Herr)]].
  2:{ rewrite Hnil, Herr. split.
      - discriminate.
      - intros e kw err []. }
  destruct (run_simulation_reaches_engine TreeSequence _stdpopsim_citation argv0
              engines species args model qc sampled contig engine Hs Hg Hc He)
    as (rows & _ & Hrun).
  assert (Honly : forall e kw, In (Engine_simulate e kw) (trace (run species args)) ->
                    e = engine /\ kw = kwargs_of args model contig sampled).
  { intros e kw Hin.
    apply engine_invoked_inv in Hin
      as (model' & qc' & sampled' & contig' & Hs' & Hg' & Hc' & He' & ->).
    rewrite Hs in Hs'. injection Hs' as <- <-.
    rewrite Hg in Hg'. injection Hg' as <-.
    rewrite Hc in Hc'. injection Hc' as <-.
    rewrite He in He'. injection He' as <-. split; reflexivity. }
  rewrite Hrun in Honly |- *.
  destruct (simulate engine (kwargs_of args model contig sampled))
    as [ts0|err0] eqn:Hsim; cbn [trace outcome fst snd] in Honly |- *.
  - split.
    + intros _.
      exists engine, (kwargs_of args model contig sampled), ts0.
      split; [apply in_or_app; left; apply engine_in_opening_events | exact Hsim].
    + intros e kw err Hin Hraise.
      destruct (Honly e kw Hin) as [-> ->]. congruence.
  - split.
    + discriminate.
    + intros e kw err Hin Hraise.
      destruct (Honly e kw Hin) as [-> ->].
      rewrite Hsim in Hraise. injection Hraise as <-.
      split; [reflexivity |].
      unfold opening_events. destruct qc; cbn [app]; repeat constructor.
Qed.

(** X7: in a run that calls the engine, the engine is called once; before
    the call the run only logs, and the summary is among these log records;
    everything after the call follows the return of the engine. *)
Theorem engine_called_once_after_summary (species : Species) (args : Args) :
  engine_invoked (trace (run species args)) ->
  exists pre post e kw s,
    trace (run species args) = pre ++ Engine_simulate e kw :: post /\
    In (Log_summary s) pre /\
    Forall (fun ev => event_level ev <> None) pre /\
    Forall (fun ev => after_engine ev = true) post.
Proof.
  intros (e & kw & Hin).
  apply engine_invoked_inv in Hin
    as (model & qc & sampled & contig & Hs & Hg & Hc & He & ->).
  destruct (run_simulation_reaches_engine TreeSequence _stdpopsim_citation argv0
              engines species args model qc sampled contig e Hs Hg Hc He)
    as (rows & _ & Hrun).
  destruct (opening_events_before_engine species args model qc contig e sampled rows)
    as (pre & s & Hopen & Hsum & Hpre).
  rewrite Hrun, Hopen.
  destruct (simulate e (kwargs_of args model contig sampled)) as [ts|err];
    cbn [trace fst].
  - exists pre, (closing_events _stdpopsim_citation species args model qc contig e ts),
      e, (kwargs_of args model contig sampled), s.
    split; [rewrite <- app_assoc; reflexivity |].
    split; [exact Hsum |]. split; [exact Hpre |].
    apply closing_events_after_engine.
  - exists pre, [], e, (kwargs_of args model contig sampled), s.
    split; [reflexivity |]. split; [exact Hsum |]. split; [exact Hpre |].
    constructor.
Qed.

End RunEffects.

(** ** Verbosity *)

(** X8: with the level [setup_logging] sets for a verbosity, the summary,
    the warning about a model that is not quality-controlled and the
    citation request are shown exactly from verbosity 1 (the default) on,
    the line before the run and the resource usage exactly from verbosity 2
    on, the debug records of write_output exactly from verbosity 3 on, and
    with --quiet (verbosity 0) no log record of a run is shown; the call of
    the engine and write_bibtex have no log record of the command line. *)
Theorem shown_by_verbosity {TreeSequence : Type} (verbose : Z)
    (ev : Event TreeSequence) :
  shown verbose ev = true <->
  match ev with
  | Log_summary _ | Warn_not_QCed _ | Write_citations _ => 1 <= verbose
  | Log_info_running _ _ _ _ _ | Summarise_usage => 2 <= verbose
  | Write_output _ _ => 3 <= verbose
  | Engine_simulate _ _ | Write_bibtex _ _ => False
  end.
Proof.
  unfold shown, isEnabledFor, setup_logging.
  destruct ev; cbn [event_level];
    try (split; [discriminate | intros []]);
    destruct (Z.eqb_spec verbose 1); destruct (Z.eqb_spec verbose 2);
    destruct (Z.ltb_spec 2 verbose); cbn [levelno];
    rewrite Z.leb_le; lia.
Qed.

(** ** The parser of a species subcommand *)

Lemma existsb_eqb_In x choices :
  existsb (String.eqb x) choices = true <-> In x choices.
Proof.
  rewrite existsb_exists. split.
  - intros (y & Hy & Heq). apply String.eqb_eq in Heq. subst y. exact Hy.
  - intros H. exists x. split; [exact H | apply String.eqb_refl].
Qed.

Lemma choice_Ok choices v r :
  choice choices v = Ok r <-> among choices v /\ r = v.
Proof.
  unfold choice, among. destruct v as [x|].
  - destruct (existsb (String.eqb x) choices) eqn:E.
    + apply existsb_eqb_In in E. split.
      * intros H. injection H as <-. split; [exact E | reflexivity].
      * intros [_ ->]. reflexivity.
    + split; [discriminate |]. intros [H _].
      apply existsb_eqb_In in H. congruence.
  - split.
    + intros H. injection H as <-. split; [exact I | reflexivity].
    + intros [_ ->]. reflexivity.
Qed.


Lemma unrecognized_Ok v r : unrecognized v = Ok r <-> v = None /\ r = None.
Proof.
  unfold unrecognized. destruct v; split; try discriminate.
  - intros [H _]. discriminate H.
  - intros H. injection H as <-. split; reflexivity.
  - intros [_ ->]. reflexivity.
Qed.


Lemma parser_Ok_inv {TreeSequence : Type} (engines : list (Engine TreeSequence))
    (default_engine : string) (species : Species) (cmd : CommandLine) (args : Args) :
  add_simulate_species_parser engines default_engine species cmd = Ok args ->
  accepted engines species cmd /\
  args = {| a_species := sp_id species;
            a_genetic_map := opt_genetic_map cmd;
            a_chromosome := parsed_chromosome species cmd;
            bibtex_file := opt_bibtex_file cmd;
            dry_run := opt_dry_run cmd;
            length_multiplier := default 1%float (opt_length_multiplier cmd);
            seed := opt_seed cmd;
            a_demographic_model := opt_demographic_model cmd;
            output := opt_output cmd;
            samples := arg_samples cmd;
            a_engine := default default_engine (opt_engine cmd);
            engine_options := opt_engine_options cmd |}.
Proof.
  unfold add_simulate_species_parser, accepted, parsed_chromosome. intros H.
  destruct (choice (map engine_id engines) (opt_engine cmd)) as [eng|] eqn:Eeng;
    cbn [rbind] in H; [| discriminate].
  apply choice_Ok in Eeng as [Heng ->].
  destruct (0 <? length (genetic_maps species))%nat.
  - destruct (choice (map gm_id (genetic_maps species)) (opt_genetic_map cmd))
      as [g|] eqn:Eg; cbn [rbind] in H; [| discriminate].
    apply choice_Ok in Eg as [Hg ->].
    destruct (1 <? length (chromosomes (genome species)))%nat.
    + destruct (choice (map chr_id (chromosomes (genome species))) (opt_chromosome cmd))
        as [c|] eqn:Ec; cbn [rbind] in H; [| discriminate].
      apply choice_Ok in Ec as [Hc ->].
      destruct (choice (map dm_id (demographic_models species))
                  (opt_demographic_model cmd)) as [d|] eqn:Ed;
        [| destruct (opt_chromosome cmd); discriminate].
      apply choice_Ok in Ed as [Hd ->].
      destruct (arg_samples cmd) as [|n l] eqn:Es;
        [destruct (opt_chromosome cmd); discriminate |].
      destruct (opt_chromosome cmd); cbn [rbind] in H; injection H as <-;
        repeat split; try assumption; discriminate.
    + destruct (unrecognized (opt_chromosome cmd)) as [c|] eqn:Ec;
        cbn [rbind] in H; [| discriminate].
      apply unrecognized_Ok in Ec as [Hc ->].
      destruct (choice (map dm_id (demographic_models species))
                  (opt_demographic_model cmd)) as [d|] eqn:Ed;
        cbn [rbind] in H; [| discriminate].
      apply choice_Ok in Ed as [Hd ->].
      destruct (arg_samples cmd) as [|n l] eqn:Es; cbn [rbind] in H;
        [discriminate |].
      injection H as <-. repeat split; try assumption; discriminate.
  - destruct (unrecognized (opt_genetic_map cmd)) as [g|] eqn:Eg;
      cbn [rbind] in H; [| discriminate].
    apply unrecognized_Ok in Eg as [Hg ->].
    destruct (1 <? length (chromosomes (genome species)))%nat.
    + destruct (choice (map chr_id (chromosomes (genome species))) (opt_chromosome cmd))
        as [c|] eqn:Ec; cbn [rbind] in H; [| discriminate].
      apply choice_Ok in Ec as [Hc ->].
      destruct (choice (map dm_id (demographic_models species))
                  (opt_demographic_model cmd)) as [d|] eqn:Ed;
        [| destruct (opt_chromosome cmd); discriminate].
      apply choice_Ok in Ed as [Hd ->].
      destruct (arg_samples cmd) as [|n l] eqn:Es;
        [destruct (opt_chromosome cmd); discriminate |].
      destruct (opt_chromosome cmd); cbn [rbind] in H; injection H as <-;
        rewrite Hg; repeat split; try assumption; discriminate.
    + destruct (unrecognized (opt_chromosome cmd)) as [c|] eqn:Ec;
        cbn [rbind] in H; [| discriminate].
      apply unrecognized_Ok in Ec as [Hc ->].
      destruct (choice (map dm_id (demographic_models species))
                  (opt_demographic_model cmd)) as [d|] eqn:Ed;
        cbn [rbind] in H; [| discriminate].
      apply choice_Ok in Ed as [Hd ->].
      destruct (arg_samples cmd) as [|n l] eqn:Es; cbn [rbind] in H;
        [discriminate |].
      injection H as <-. rewrite Hg. repeat split; try assumption; discriminate.
Qed.





Lemma find_by_name {A : Type} (f : A -> string) (l : list A) (x : string) :
  In x (map f l) ->
  exists a, find (fun a => String.eqb (f a) x) l = Some a /\ f a = x.
Proof.
  induction l as [|b l IH]; intros H; [destruct H |].
  cbn [find]. destruct (String.eqb_spec (f b) x) as [Heq|Hne].
  - exists b. split; [reflexivity | exact Heq].
  - destruct H as [H|H]; [contradiction |]. apply IH. exact H.
Qed.

Lemma parsed_chromosome_found {TreeSequence : Type}
    (engines : list (Engine TreeSequence)) (species : Species) (cmd : CommandLine) :
  accepted engines species cmd ->
  chromosomes (genome species) <> [] ->
  exists c, get_chromosome (genome species) (parsed_chromosome species cmd) = Ok c.
Proof.
  intros (_ & _ & Hc & _) Hne. unfold parsed_chromosome, get_chromosome.
  destruct (chromosomes (genome species)) as [|first rest] eqn:Hchroms;
    [congruence |].
  destruct rest as [|second rest].
  - cbn. eexists. reflexivity.
  - cbn [length Nat.ltb Nat.leb] in Hc |- *.
    destruct (opt_chromosome cmd) as [c|].
    + destruct (find_by_name chr_id (first :: second :: rest) c Hc) as (a & Ha & _).
      rewrite Ha. eexists. reflexivity.
    + cbn [map head find]. rewrite String.eqb_refl. eexists. reflexivity.
Qed.

(** X10: after a successful parse, for a species with at least one
    chromosome, without a genetic map and with the default engine among the
    registered ones, the model of the run is always found, and the only
    thing that keeps the run from calling the engine is a number of sample
    counts above the number of sampling populations of the model. *)
Theorem parsed_run_reaches_engine {TreeSequence : Type}
    (_stdpopsim_citation : Citation) (argv0 : string)
    (engines : list (Engine TreeSequence)) (default_engine : string)
    (species : Species) (cmd : CommandLine) (args : Args) :
  add_simulate_species_parser engines default_engine species cmd = Ok args ->
  In default_engine (map engine_id engines) ->
  chromosomes (genome species) <> [] ->
  opt_genetic_map cmd = None ->
  exists model qc,
    select_model TreeSequence argv0 species args = ([], Ok (model, qc)) /\
    (engine_invoked (trace (run_simulation _stdpopsim_citation argv0 engines
                              species args))
     <-> (length (arg_samples cmd) <= num_sampling_populations model)%nat).
Proof.
  intros Hparse Hdefault Hchroms Hnomap.
  apply parser_Ok_inv in Hparse as [Hacc Hargs].
  assert (Hsel : exists model qc,
            select_model TreeSequence argv0 species args = ([], Ok (model, qc))).
  { unfold select_model. rewrite Hargs. cbn [a_demographic_model].
    destruct Hacc as (_ & _ & _ & Hd & _).
    destruct (opt_demographic_model cmd) as [d|]; [| eexists; eexists; reflexivity].
    unfold get_model_wrapper, get_demographic_model.
    destruct (find_by_name dm_id (demographic_models species) d Hd) as (m & Hm & _).
    rewrite Hm. eexists. eexists. reflexivity. }
  destruct Hsel as (model & qc & Hsel). exists model, qc. split; [exact Hsel |].
  assert (Hs : outcome (select_model TreeSequence argv0 species args) = Ok (model, qc))
    by (rewrite Hsel; reflexivity).
  assert (Hsamples : samples args = arg_samples cmd) by (rewrite Hargs; reflexivity).
  split.
  - intros (e & kw & Hin).
    apply engine_invoked_inv in Hin
      as (model' & qc' & sampled & contig & Hs' & Hg & _ & _ & _).
    rewrite Hs in Hs'. injection Hs' as <- <-.
    apply get_samples_Ok_inv in Hg as [Hfit _]. rewrite <- Hsamples. exact Hfit.
  - intros Hfit.
    destruct (parsed_chromosome_found engines species cmd Hacc Hchroms) as (c & Hc).
    assert (Hcontig : exists contig,
              get_contig species (a_chromosome args) (a_genetic_map args)
                (length_multiplier args) = Ok contig).
    { unfold get_contig. rewrite Hargs. cbn [a_chromosome a_genetic_map].
      rewrite Hc, Hnomap. cbn [rbind]. eexists. reflexivity. }
    destruct Hcontig as (contig & Hcontig).
    assert (Hengine : exists engine, get_engine engines (a_engine args) = Ok engine).
    { unfold get_engine. rewrite Hargs. cbn [a_engine].
      destruct Hacc as (Heng & _).
      assert (Hin : In (default default_engine (opt_engine cmd)) (map engine_id engines)).
      { destruct (opt_engine cmd); [exact Heng | exact Hdefault]. }
      destruct (find_by_name engine_id engines _ Hin) as (e & He & _).
      rewrite He. eexists. reflexivity. }
    destruct Hengine as (engine & Hengine).
    assert (Hg : get_samples model (samples args)
                 = Ok (samples_from 0 (sampling_populations model) (samples args))).
    { apply get_samples_fits. rewrite Hsamples. exact Hfit. }
    destruct (run_simulation_reaches_engine TreeSequence _stdpopsim_citation argv0
                engines species args model qc _ contig engine Hs Hg Hcontig Hengine)
      as (rows & _ & Hrun).
    exists engine, (kwargs_of args model contig
                      (samples_from 0 (sampling_populations model) (samples args))).
    rewrite Hrun.
    destruct (simulate engine _); cbn [trace fst];
      [apply in_or_app; left |]; apply engine_in_opening_events.
Qed.

(** ** The option --msprime-change-model *)

Section ChangeModelProperties.

Variable py_float : string -> option float.
Variable supported_models : list string.

#[local] Abbreviation convert := (convert_arguments py_float supported_models).

Lemma time_or_model_pair t m rest :
  convert true (t :: m :: rest) =
    match py_float t with
    | None => Raise (ArgparseError ("`" ++ t ++ "' is not a number")%string)
    | Some x =>
        if existsb (String.eqb m) supported_models then
          others <- convert true rest;;
          Ok (ChangeTime x :: ChangeModel m :: fst others, snd others)
        else Raise (ArgparseError ("`" ++ m ++ "' is not a supported model")%string)
    end.
Proof.
  cbn [convert_arguments]. unfold time_or_model at 1.
  destruct (py_float t) as [x|]; cbn [rbind negb snd fst]; [| reflexivity].
  unfold time_or_model at 1.
  destruct (existsb (String.eqb m) supported_models); cbn [rbind negb snd fst];
    [| reflexivity].
  destruct (convert true rest) as [[vals st]|e]; reflexivity.
Qed.

(** X11: the arguments of --msprime-change-model are checked in turns, a
    time then a model: when every pair (T, MODEL) has a number for T and a
    supported model for MODEL, all are converted in order and the flag is
    back at "time", so that the next pair is checked the same way; as soon
    as one pair is not so, the conversion ends in a usage error. *)
Theorem change_model_pairs (changes : list (string * string)) :
  (Forall (well_formed_change py_float supported_models) changes ->
   convert true (change_arguments changes)
   = Ok (converted_changes py_float changes, true)) /\
  (Exists (fun change => ~ well_formed_change py_float supported_models change)
          changes ->
   exists msg, convert true (change_arguments changes) = Raise (ArgparseError msg)).
Proof.
  split.
  - induction 1 as [|[t m] changes [Ht Hm] _ IH]; [reflexivity |].
    cbn [change_arguments flat_map app fst snd] in *.
    rewrite (time_or_model_pair t m _).
    cbn [fst snd] in Ht, Hm.
    destruct (py_float t) as [x|] eqn:Hx; [| congruence].
    apply existsb_eqb_In in Hm. rewrite Hm.
    fold (change_arguments changes). rewrite IH. cbn [rbind fst snd].
    unfold converted_changes. cbn [flat_map fst snd app]. rewrite Hx. reflexivity.
  - induction changes as [|[t m] changes IH]; intros H; [inversion H |].
    cbn [change_arguments flat_map app fst snd].
    rewrite (time_or_model_pair t m _).
    destruct (py_float t) as [x|] eqn:Hx; [| eexists; reflexivity].
    destruct (existsb (String.eqb m) supported_models) eqn:Hm;
      [| eexists; reflexivity].
    apply existsb_eqb_In in Hm.
    inversion H as [? ? Hbad|? ? Hrest]; subst.
    + exfalso. apply Hbad. split; cbn [fst snd]; [congruence | exact Hm].
    + destruct (IH Hrest) as (msg & Hmsg).
      fold (change_arguments changes). rewrite Hmsg. cbn [rbind].
      eexists. reflexivity.
Qed.

End ChangeModelProperties.

(** ** The download of genetic maps *)

Lemma find_unique {A : Type} (f : A -> string) (l : list A) (a : A) :
  NoDup (map f l) -> In a l ->
  find (fun b => String.eqb (f b) (f a)) l = Some a.
Proof.
  induction l as [|b l IH]; intros Hnd Hin; [destruct Hin |].
  cbn [map] in Hnd. apply NoDup_cons in Hnd as [Hb Hnd].
  cbn [find]. destruct Hin as [->|Hin].
  - rewrite String.eqb_refl. reflexivity.
  - destruct (String.eqb_spec (f b) (f a)) as [Heq|_].
    + exfalso. apply Hb. rewrite Heq. apply list_elem_of_In, in_map. exact Hin.
    + apply IH; assumption.
Qed.

Lemma flat_map_ext_In {A B : Type} (f g : A -> list B) (l : list A) :
  (forall a, In a l -> f a = g a) -> flat_map f l = flat_map g l.
Proof.
  induction l as [|a l IH]; intros H; [reflexivity |].
  cbn [flat_map]. rewrite (H a (or_introl eq_refl)), IH; [reflexivity |].
  intros b Hb. apply H. right. exact Hb.
Qed.

Section DownloadProperties.

Variable argv0 : string.
Variable registry : Registry.
Variable download : GeneticMap -> Result unit.

#[local] Abbreviation run_download := (run_download_genetic_maps argv0 registry download).
#[local] Abbreviation one := (download_one argv0 download).

Lemma for_each_app {A : Type} (body : A -> Downloads unit) (l1 l2 : list A) :
  for_each body (l1 ++ l2)
  = and_then (for_each body l1) (fun _ => for_each body l2).
Proof.
  induction l1 as [|a l1 IH]; cbn [app for_each].
  - cbn [and_then]. destruct (for_each body l2). reflexivity.
  - rewrite IH. destruct (body a) as [t [[]|e]]; cbn [and_then]; [| reflexivity].
    destruct (for_each body l1) as [t1 [[]|e1]]; cbn [and_then]; [| reflexivity].
    destruct (for_each body l2) as [t2 r2]. rewrite app_assoc. reflexivity.
Qed.

Lemma for_each_all_done {A : Type} (body : A -> Downloads unit)
    (events : A -> list DownloadEvent) (l : list A) :
  (forall a, In a l -> body a = (events a, Ok tt)) ->
  for_each body l = (flat_map events l, Ok tt).
Proof.
  induction l as [|a l IH]; intros H; [reflexivity |].
  cbn [for_each flat_map]. rewrite (H a (or_introl eq_refl)). cbn [and_then].
  rewrite IH; [reflexivity |]. intros b Hb. apply H. right. exact Hb.
Qed.

Lemma download_one_done species species_id gid gm :
  get_genetic_map species gid = Ok gm ->
  download gm = Ok tt ->
  one species species_id gid = ([Log_downloading species_id gid; Download gm], Ok tt).
Proof.
  intros Hgm Hd. unfold download_one, get_genetic_map_wrapper.
  rewrite Hgm. cbn [and_then app]. rewrite Hd. reflexivity.
Qed.

(** X12: called without a species and without map names, the subcommand
    download-genetic-maps downloads every genetic map of every registered
    species exactly once, species by species in registration order and map
    by map, logging each download before it starts, provided the species ids
    and the map ids of a species are distinct and no download fails. *)
Theorem download_all_maps (args : DownloadArgs) :
  dl_species args = None ->
  dl_genetic_maps args = [] ->
  NoDup (map sp_id registry) ->
  (forall sp, In sp registry -> NoDup (map gm_id (genetic_maps sp))) ->
  (forall sp gm, In sp registry -> In gm (genetic_maps sp) -> download gm = Ok tt) ->
  run_download args = (flat_map downloads_of registry, Ok tt).
Proof.
  intros Hsp Hmaps Hnd Hndmaps Hok.
  unfold run_download_genetic_maps. rewrite Hsp, Hmaps. cbn [length Nat.eqb].
  unfold all_species.
  assert (Heach : forall sp, In sp registry ->
            and_then (get_species_wrapper argv0 registry (sp_id sp))
              (fun species =>
                 for_each (one species (sp_id sp)) (map gm_id (genetic_maps species)))
            = (downloads_of sp, Ok tt)).
  { intros sp Hin. unfold get_species_wrapper, get_species, has_id.
    rewrite (find_unique sp_id registry sp Hnd Hin). cbn [and_then app].
    rewrite (for_each_all_done _
               (fun gid => match get_genetic_map sp gid with
                           | Ok gm => [Log_downloading (sp_id sp) gid; Download gm]
                           | Raise _ => []
                           end)).
    - unfold downloads_of. f_equal.
      rewrite flat_map_concat_map, map_map, <- flat_map_concat_map.
      apply flat_map_ext_In. intros gm Hgm. unfold get_genetic_map.
      rewrite (find_unique gm_id (genetic_maps sp) gm (Hndmaps sp Hin) Hgm).
      reflexivity.
    - intros gid Hgid. apply in_map_iff in Hgid as (gm & <- & Hgm).
      unfold get_genetic_map at 1.
      rewrite (find_unique gm_id (genetic_maps sp) gm (Hndmaps sp Hin) Hgm).
      apply download_one_done.
      + unfold get_genetic_map.
        rewrite (find_unique gm_id (genetic_maps sp) gm (Hndmaps sp Hin) Hgm).
        reflexivity.
      + apply (Hok sp gm Hin Hgm). }
  clear Hsp Hmaps.
  rewrite (for_each_all_done _ (fun sid =>
             match get_species sid registry with
             | Ok sp => downloads_of sp
             | Raise _ => []
             end)).
  - f_equal. rewrite flat_map_concat_map, map_map, <- flat_map_concat_map.
    apply flat_map_ext_In. intros sp Hin.
    unfold get_species, has_id.
    rewrite (find_unique sp_id registry sp Hnd Hin). reflexivity.
  - intros sid Hsid. apply in_map_iff in Hsid as (sp & <- & Hin).
    rewrite (Heach sp Hin). unfold get_species, has_id.
    rewrite (find_unique sp_id registry sp Hnd Hin). reflexivity.
Qed.

(** X13: for a species name that is not registered, the subcommand
    download-genetic-maps exits without downloading or logging anything,
    whatever map names follow. *)
Theorem download_unknown_species (sid : string) (ids : list string) :
  (forall sp, get_species sid registry <> Ok sp) ->
  exists msg,
    run_download {| dl_species := Some sid; dl_genetic_maps := ids |}
    = ([], Raise (SystemExit msg)).
Proof.
  intros Hunknown. unfold run_download_genetic_maps. cbn [dl_species for_each].
  unfold get_species_wrapper.
  destruct (get_species sid registry) as [sp|e] eqn:Hsp;
    [exfalso; exact (Hunknown sp eq_refl) |].
  unfold get_species in Hsp. destruct (find (has_id sid) registry); [discriminate |].
  injection Hsp as <-. cbn [and_then]. eexists. reflexivity.
Qed.

Lemma download_named_maps species sid ids :
  Forall (fun gid => exists gm, get_genetic_map species gid = Ok gm /\
                                download gm = Ok tt) ids ->
  for_each (one species sid) ids = (downloads_named species sid ids, Ok tt).
Proof.
  intros H. unfold downloads_named. apply for_each_all_done.
  intros gid Hgid. rewrite List.Forall_forall in H.
  destruct (H gid Hgid) as (gm & Hgm & Hd).
  rewrite Hgm. apply download_one_done; assumption.
Qed.

(** X14: the maps of a species are downloaded in the order in which they
    are named, and the first failure ends the subcommand: when the download
    of a named map fails, the maps named before it have been downloaded, the
    error is raised unchanged and no later map is touched; when a name is
    not a map of the species, the maps named before it have been downloaded
    and the program exits. *)
Theorem download_stops_at_first_failure (sid : string) (sp : Species)
    (pre post : list string) (bad : string) :
  get_species sid registry = Ok sp ->
  Forall (fun gid => exists gm, get_genetic_map sp gid = Ok gm /\
                                download gm = Ok tt) pre ->
  (forall gm err,
     get_genetic_map sp bad = Ok gm -> download gm = Raise err ->
     run_download {| dl_species := Some sid; dl_genetic_maps := pre ++ bad :: post |}
     = (downloads_named sp sid pre ++ [Log_downloading sid bad; Download gm],
        Raise err)) /\
  ((forall gm, get_genetic_map sp bad <> Ok gm) ->
   exists msg,
     run_download {| dl_species := Some sid; dl_genetic_maps := pre ++ bad :: post |}
     = (downloads_named sp sid pre, Raise (SystemExit msg))).
Proof.
  intros Hsp Hpre.
  assert (Hlen : (length (pre ++ bad :: post) =? 0)%nat = false)
    by (rewrite length_app; cbn [length]; apply Nat.eqb_neq; lia).
  unfold run_download_genetic_maps. cbn [dl_species dl_genetic_maps].
  cbn [for_each]. unfold get_species_wrapper. rewrite Hsp, Hlen.
  cbn [and_then]. rewrite for_each_app, (download_named_maps sp sid pre Hpre).
  cbn [and_then for_each].
  split.
  - intros gm err Hgm Hd. unfold download_one, get_genetic_map_wrapper.
    rewrite Hgm. cbn [and_then app]. rewrite Hd. reflexivity.
  - intros Hbad. unfold download_one, get_genetic_map_wrapper.
    destruct (get_genetic_map sp bad) as [gm|e] eqn:Hgm;
      [exfalso; exact (Hbad gm eq_refl) |].
    unfold get_genetic_map in Hgm.
    destruct (find (fun g => String.eqb (gm_id g) bad) (genetic_maps sp));
      [discriminate |].
    injection Hgm as <-. cbn [and_then app]. rewrite app_nil_r.
    eexists. reflexivity.
Qed.

End DownloadProperties.

(** ** The citations of a run *)

Lemma merge_keeps_doi citations c d :
  In c citations -> doi c = Some d ->
  exists rep, In rep (merge citations) /\ doi rep = Some d /\
              reasons c ⊆ reasons rep.
Proof.
  intros Hin Hd.
  destruct (group_representative_spec d citations) as (rep & Hrep & Hdoi & Hr).
  { apply in_map_iff. exists c. split; assumption. }
  exists rep. split.
  - pose proof (merge_group d citations) as Hg. rewrite Hrep in Hg.
    assert (Hin' : In rep (List.filter (has_doi d) (merge citations)))
      by (rewrite Hg; left; reflexivity).
    apply filter_In in Hin' as [Hin' _]. exact Hin'.
  - split; [exact Hdoi |].
    intros r Hrc. apply Hr. exists c. repeat split; assumption.
Qed.

Lemma merge_keeps_no_doi citations c :
  In c citations -> doi c = None -> In c (merge citations).
Proof.
  intros Hin Hd.
  assert (H : In c (List.filter no_doi (merge citations))).
  { unfold merge. rewrite fold_merge_into_no_doi. cbn [List.filter app].
    apply filter_In. split; [exact Hin |].
    unfold no_doi. apply bool_decide_eq_true. exact Hd. }
  apply filter_In in H as [H _]. exact H.
Qed.

Lemma merge_at_most_one citations d :
  (length (List.filter (has_doi d) (merge citations)) <= 1)%nat.
Proof.
  rewrite merge_group. destruct (group_representative d citations); cbn; lia.
Qed.

Lemma merge_into_origin acc c rep :
  In rep (merge_into acc c) ->
  (exists a, In a acc /\ same_publication a rep) \/ same_publication c rep.
Proof.
  induction acc as [|a acc IH]; cbn [merge_into].
  - intros [<-|[]]. right. repeat split.
  - destruct (same_doi a c).
    + intros [<-|Hin].
      * left. exists a. split; [left; reflexivity | repeat split].
      * left. exists rep. split; [right; exact Hin | repeat split].
    + intros [<-|Hin].
      * left. exists a. split; [left; reflexivity | repeat split].
      * destruct (IH Hin) as [(b & Hb & Hsame)|Hsame].
        -- left. exists b. split; [right; exact Hb | exact Hsame].
        -- right. exact Hsame.
Qed.

Lemma fold_merge_into_origin citations acc rep :
  In rep (fold_left merge_into citations acc) ->
  exists c, In c (acc ++ citations) /\ same_publication c rep.
Proof.
  revert acc. induction citations as [|c citations IH]; intros acc Hin;
    cbn [fold_left] in Hin.
  - exists rep. rewrite app_nil_r. split; [exact Hin | repeat split].
  - destruct (IH _ Hin) as (x & Hx & Hsame).
    apply in_app_or in Hx as [Hx|Hx].
    + destruct (merge_into_origin acc c x Hx) as [(a & Ha & Hax)|Hcx].
      * exists a. split; [apply in_or_app; left; exact Ha |].
        destruct Hax as (H1 & H2 & H3), Hsame as (H4 & H5 & H6).
        repeat split; congruence.
      * exists c. split; [apply in_or_app; right; left; reflexivity |].
        destruct Hcx as (H1 & H2 & H3), Hsame as (H4 & H5 & H6).
        repeat split; congruence.
    + exists x. split; [apply in_or_app; right; right; exact Hx | exact Hsame].
Qed.

Lemma fold_merge_into_head citations a acc :
  exists first rest,
    fold_left merge_into citations (a :: acc) = first :: rest /\
    same_publication a first /\ reasons a ⊆ reasons first.
Proof.
  revert a acc. induction citations as [|c citations IH]; intros a acc;
    cbn [fold_left].
  - exists a, acc. split; [reflexivity |]. split; [repeat split | reflexivity].
  - cbn [merge_into]. destruct (same_doi a c).
    + destruct (IH (add_reasons a c) acc) as (first & rest & Heq & Hsame & Hsub).
      exists first, rest. split; [exact Heq |].
      split; [exact Hsame |].
      etransitivity; [| exact Hsub]. cbn [add_reasons reasons].
      apply union_subseteq_l.
    + apply IH.
Qed.

Lemma get_citations_sources {TreeSequence : Type} (own : Citation)
    (engine : Engine TreeSequence) (model : DemographicModel) (contig : Contig)
    (species : Species) :
  exists others,
    get_citations own engine model contig species = merge (own :: others) /\
    forall c, In c (own :: others) <-> is_source own engine model contig species c.
Proof.
  unfold get_citations, is_source.
  destruct (genetic_map contig) as [gm|]; eexists; (split; [reflexivity |]);
    intros c; cbn [app In]; rewrite !in_app_iff; split.
  - intros [H|[[[[[H|H]|H]|H]|H]|H]]; eauto 10.
  - intros [H|[H|[H|[H|[H|[(gm' & Hgm & H)|H]]]]]]; eauto 10.
    injection Hgm as <-. eauto 10.
  - intros [H|[[[[H|H]|H]|H]|H]]; eauto 10.
  - intros [H|[H|[H|[H|[H|[(gm' & Hgm & H)|H]]]]]]; eauto 10.
    discriminate Hgm.
Qed.

(** X15: the citations of a run lose no source and invent none: each
    citation of stdpopsim, the engine, the genome, the genetic map (when the
    contig has one) and the model is represented in the list, by a citation
    of its doi that carries all its reasons, or by itself when it has no doi;
    each citation of the list is of the publication of one of these sources;
    no doi occurs twice; and stdpopsim's own citation comes first. *)
Theorem get_citations_cover_sources {TreeSequence : Type} (own : Citation)
    (engine : Engine TreeSequence) (model : DemographicModel) (contig : Contig)
    (species : Species) :
  (forall c, is_source own engine model contig species c ->
     match doi c with
     | Some d =>
         exists rep, In rep (get_citations own engine model contig species) /\
                     doi rep = Some d /\ reasons c ⊆ reasons rep
     | None => In c (get_citations own engine model contig species)
     end) /\
  (forall rep, In rep (get_citations own engine model contig species) ->
     exists c, is_source own engine model contig species c /\
               same_publication c rep) /\
  (forall d, (length (List.filter (has_doi d)
                        (get_citations own engine model contig species)) <= 1)%nat) /\
  (exists first rest,
     get_citations own engine model contig species = first :: rest /\
     same_publication own first /\ reasons own ⊆ reasons first).
Proof.
  destruct (get_citations_sources own engine model contig species)
    as (others & -> & Hsrc).
  split; [| split; [| split]].
  - intros c Hc. apply Hsrc in Hc.
    destruct (doi c) as [d|] eqn:Hd.
    + apply (merge_keeps_doi _ c d Hc Hd).
    + apply (merge_keeps_no_doi _ c Hc Hd).
  - intros rep Hrep. unfold merge in Hrep.
    apply fold_merge_into_origin in Hrep as (c & Hc & Hsame).
    exists c. split; [apply Hsrc; exact Hc | exact Hsame].
  - intros d. apply merge_at_most_one.
  - unfold merge. cbn [fold_left merge_into].
    apply fold_merge_into_head.
Qed.

(** * The extra properties at concrete inputs *)

Lemma summary_shows_requested_counts_witness :
  exists s model qc,
    In (Log_summary s) (trace (cattle_run iona false)) /\
    outcome (select_model unit "stdpopsim" cattle (parsed iona false))
      = Ok (model, qc) /\
    Forall2 (fun (p : nat) (row : string * Z * Z) =>
               exists pop,
                 populations model !! p = Some pop /\
                 row = (pop_id pop,
                        Z.of_nat (Z.to_nat (nth p (samples (parsed iona false)) 0)),
                        sampling_time pop))
            (seq 0 (num_sampling_populations model)) (sum_rows s).
Proof.
  assert (Hin : exists s, In (Log_summary s) (trace (cattle_run iona false)))
    by (eexists; vm_compute; find_event).
  destruct Hin as (s & Hin).
  destruct (summary_shows_requested_counts unit own_citation "stdpopsim"
              [msprime_engine] cattle (parsed iona false) s Hin)
    as (model & qc & Hsel & Hrows).
  exists s, model, qc. split; [exact Hin |]. split; [exact Hsel | exact Hrows].
Defined.

Lemma bibtex_only_after_engine_witness :
  exists cs kw,
    In (Write_bibtex cs "refs.bib")
       (trace (run_simulation own_citation "stdpopsim" [msprime_engine] cattle
                 (parsed_with "msprime" (Some "refs.bib") iona))) /\
    In (Engine_simulate msprime_engine kw)
       (trace (run_simulation own_citation "stdpopsim" [msprime_engine] cattle
                 (parsed_with "msprime" (Some "refs.bib") iona))) /\
    cs = get_citations own_citation msprime_engine (kw_demographic_model kw)
           (kw_contig kw) cattle.
Proof.
  assert (Hin : exists cs,
            In (Write_bibtex cs "refs.bib")
               (trace (run_simulation own_citation "stdpopsim" [msprime_engine] cattle
                         (parsed_with "msprime" (Some "refs.bib") iona)))).
  { eexists. vm_compute. find_event. }
  destruct Hin as (cs & Hin).
  destruct (bibtex_only_after_engine unit own_citation "stdpopsim" [msprime_engine]
              cattle (parsed_with "msprime" (Some "refs.bib") iona) cs "refs.bib" Hin)
    as (_ & e & kw & ts & Hengine & _ & Hcs).
  assert (He : e = msprime_engine).
  { apply engine_invoked_inv in Hengine as (? & ? & ? & ? & _ & _ & _ & He & _).
    vm_compute in He. injection He as <-. reflexivity. }
  subst e. exists cs, kw. split; [exact Hin |]. split; [exact Hengine | exact Hcs].
Defined.

Lemma run_outcome_witness :
  outcome (run_simulation own_citation "stdpopsim" [failing_engine] cattle
             (parsed_with "slim" (Some "refs.bib") None))
  = Raise (EngineError "slim: command not found") /\
  Forall (fun ev => after_engine ev = false)
         (trace (run_simulation own_citation "stdpopsim" [failing_engine] cattle
                   (parsed_with "slim" (Some "refs.bib") None))).
Proof.
  destruct (run_outcome unit own_citation "stdpopsim" [failing_engine] cattle
              (parsed_with "slim" (Some "refs.bib") None)) as [_ H].
  eapply H; [vm_compute; find_event | vm_compute; reflexivity].
Defined.

Lemma engine_called_once_after_summary_witness :
  exists pre post e kw s,
    trace (run_simulation own_citation "stdpopsim" [msprime_engine] cattle
             (parsed iona false))
    = pre ++ Engine_simulate e kw :: post /\
    In (Log_summary s) pre /\
    Forall (fun ev => event_level ev <> None) pre /\
    Forall (fun ev => after_engine ev = true) post.
Proof.
  apply (engine_called_once_after_summary unit own_citation "stdpopsim"
           [msprime_engine] cattle (parsed iona false)).
  eexists. eexists. vm_compute. find_event.
Defined.

Lemma shown_by_verbosity_witness :
  shown 1 (@Write_citations unit []) = true /\
  shown 3 (Write_output tt None) = true /\
  shown 0 (@Write_citations unit []) = false /\
  shown 1 (@Summarise_usage unit) = false /\
  shown 2 (Write_output tt None) = false.
Proof.
  split; [apply (shown_by_verbosity 1 (@Write_citations unit [])); lia |].
  split; [apply (shown_by_verbosity 3 (Write_output tt None)); lia |].
  split; [| split]; apply not_true_is_false; intros H.
  - apply (shown_by_verbosity 0 (@Write_citations unit [])) in H. lia.
  - apply (shown_by_verbosity 1 (@Summarise_usage unit)) in H. lia.
  - apply (shown_by_verbosity 2 (Write_output tt None)) in H. lia.
Defined.


Lemma parsed_run_reaches_engine_witness :
  exists model qc,
    select_model unit "stdpopsim" cattle (parsed iona false) = ([], Ok (model, qc)) /\
    (engine_invoked (trace (run_simulation own_citation "stdpopsim" [msprime_engine]
                              cattle (parsed iona false)))
     <-> (length (arg_samples (command iona false))
          <= num_sampling_populations model)%nat).
Proof.
  apply (parsed_run_reaches_engine own_citation "stdpopsim" [msprime_engine]
           "msprime" cattle (command iona false) (parsed iona false)).
  - apply command_parsed. left. reflexivity.
  - left. reflexivity.
  - vm_compute. discriminate.
  - reflexivity.
Defined.

Lemma change_model_pairs_witness :
  convert_arguments float_of_example ["hudson"; "dtwf"] true
    (change_arguments [("100", "dtwf"); ("2.5e3", "hudson")])
  = Ok (converted_changes float_of_example [("100", "dtwf"); ("2.5e3", "hudson")],
        true) /\
  exists msg,
    convert_arguments float_of_example ["hudson"; "dtwf"] true
      (change_arguments [("100", "dtwf"); ("hudson", "2.5e3")])
    = Raise (ArgparseError msg).
Proof.
  split.
  - apply (change_model_pairs float_of_example ["hudson"; "dtwf"]).
    constructor; [split; cbn; [discriminate | auto] |].
    constructor; [split; cbn; [discriminate | auto] | constructor].
  - apply (change_model_pairs float_of_example ["hudson"; "dtwf"]).
    apply Exists_cons_tl. apply Exists_cons_hd.
    intros [H _]. apply H. reflexivity.
Defined.

Lemma download_all_maps_witness :
  run_download_genetic_maps "stdpopsim" [mapped_cattle] download_ok
    {| dl_species := None; dl_genetic_maps := [] |}
  = (flat_map downloads_of [mapped_cattle], Ok tt).
Proof.
  apply download_all_maps.
  - reflexivity.
  - reflexivity.
  - apply (bool_decide_unpack _). vm_compute. exact I.
  - intros sp [<-|[]]. apply (bool_decide_unpack _). vm_compute. exact I.
  - intros sp gm _ _. reflexivity.
Defined.

Lemma download_unknown_species_witness :
  exists msg,
    run_download_genetic_maps "stdpopsim" [mapped_cattle] download_ok
      {| dl_species := Some "HomSap"; dl_genetic_maps := ["MapA"] |}
    = ([], Raise (SystemExit msg)).
Proof.
  apply download_unknown_species.
  intros sp H. vm_compute in H. discriminate H.
Defined.

Lemma download_stops_at_first_failure_witness :
  run_download_genetic_maps "stdpopsim" [mapped_cattle] download_flaky
    {| dl_species := Some "BosTau"; dl_genetic_maps := ["MapA"] ++ "MapB" :: ["MapA"] |}
  = (downloads_named mapped_cattle "BosTau" ["MapA"]
       ++ [Log_downloading "BosTau" "MapB"; Download map_b],
     Raise (CacheError "no network")).
Proof.
  apply (download_stops_at_first_failure "stdpopsim" [mapped_cattle] download_flaky
           "BosTau" mapped_cattle ["MapA"] ["MapA"] "MapB").
  - vm_compute. reflexivity.
  - constructor; [| constructor].
    exists map_a. split; reflexivity.
  - reflexivity.
  - reflexivity.
Defined.

Lemma get_citations_cover_sources_witness :
  exists rep,
    In rep (get_citations own_citation msprime_engine (PiecewiseConstantSize 62000)
              {| recombination_map := uniform_map 158534110 1e-8%float;
                 contig_mutation_rate := 1e-8%float; genetic_map := None |}
              cattle) /\
    doi rep = Some "https://doi.org/10.1093/gigascience/giaa021" /\
    reasons BosTau._assembly_citation ⊆ reasons rep.
Proof.
  destruct (get_citations_cover_sources own_citation msprime_engine
              (PiecewiseConstantSize 62000)
              {| recombination_map := uniform_map 158534110 1e-8%float;
                 contig_mutation_rate := 1e-8%float; genetic_map := None |}
              cattle) as (Hkeep & _).
  apply (Hkeep BosTau._assembly_citation).
  right. right. left. vm_compute. left. reflexivity.
Defined.

(** ** The line logged before the run, and loading the catalog *)

Lemma samples_from_length i pops counts :
  (length counts <= length pops)%nat ->
  length (samples_from i pops counts)
  = fold_right (fun c acc => (Z.to_nat c + acc)%nat) 0%nat counts.
Proof.
  revert i counts. induction pops as [|p pops IH]; intros i counts Hlen.
  - destruct counts; [reflexivity | cbn [length] in Hlen; lia].
  - destruct counts as [|n counts]; [reflexivity |].
    cbn [samples_from fold_right]. rewrite length_app, repeat_length.
    rewrite IH; [reflexivity |]. cbn [length] in Hlen. lia.
Qed.

Section InfoLine.

Variable TreeSequence : Type.
Variable _stdpopsim_citation : Citation.
Variable argv0 : string.
Variable engines : list (Engine TreeSequence).

#[local] Abbreviation run := (run_simulation _stdpopsim_citation argv0 engines).

Lemma info_in_opening_events species args model qc contig
    (engine : Engine TreeSequence) sampled rows mid sid c n eid :
  In (Log_info_running mid sid c n eid)
     (opening_events species args model qc contig engine sampled rows) ->
  n = length sampled /\ sid = sp_id species /\ c = contig /\
  eid = engine_id engine /\ mid = dm_id model.
Proof.
  unfold opening_events. destruct qc; cbn [app In]; intros H;
    repeat match type of H with
           | _ \/ _ => destruct H as [H|H]
           | False => destruct H
           end;
    try discriminate H; injection H as <- <- <- <- <-; repeat split.
Qed.

(** X16: the line a run logs before it starts names the species of the
    subcommand, the engine that is then called and the contig that was
    resolved, and its number of samples is the sum of the sample counts of
    the command line (a negative count adding nothing). *)
Theorem info_line_reports_total (species : Species) (args : Args)
    (mid sid eid : string) (c : Contig) (n : nat) :
  In (Log_info_running mid sid c n eid) (trace (run species args)) ->
  n = fold_right (fun count acc => (Z.to_nat count + acc)%nat) 0%nat (samples args) /\
  sid = sp_id species /\
  get_contig species (a_chromosome args) (a_genetic_map args)
    (length_multiplier args) = Ok c /\
  exists e kw, In (Engine_simulate e kw) (trace (run species args)) /\
               engine_id e = eid /\ dm_id (kw_demographic_model kw) = mid.
Proof.
  intros Hin.
  destruct (run_simulation_cases TreeSequence _stdpopsim_citation argv0 engines
              species args)
    as [(model & qc & sampled & contig & engine & Hs & Hg & Hc & He)|[Hnil _]].
  2:{ rewrite Hnil in Hin. destruct Hin. }
  destruct (run_simulation_reaches_engine TreeSequence _stdpopsim_citation argv0
              engines species args model qc sampled contig engine Hs Hg Hc He)
    as (rows & _ & Hrun).
  assert (Hinfo : n = length sampled /\ sid = sp_id species /\ c = contig /\
                  eid = engine_id engine /\ mid = dm_id model).
  { rewrite Hrun in Hin.
    destruct (simulate engine (kwargs_of args model contig sampled)) as [ts|err];
      cbn [trace fst] in Hin.
    - apply in_app_or in Hin as [Hin|Hin].
      + apply info_in_opening_events in Hin. exact Hin.
      + apply In_closing_events in Hin
          as [Hx|[(?&_&Hx)|[(_&Hx)|(?&_&Hx)]]]; discriminate Hx.
    - apply info_in_opening_events in Hin. exact Hin. }
  destruct Hinfo as (-> & -> & -> & -> & ->).
  apply get_samples_Ok_inv in Hg as Hinv. destruct Hinv as [Hfit ->].
  split; [apply samples_from_length; exact Hfit |].
  split; [reflexivity |]. split; [exact Hc |].
  exists engine,
    (kwargs_of args model contig
       (samples_from 0 (sampling_populations model) (samples args))).
  split; [| split; reflexivity].
  rewrite Hrun.
  destruct (simulate engine _); cbn [trace fst];
    [apply in_or_app; left |]; apply engine_in_opening_events.
Qed.

End InfoLine.

Lemma info_line_reports_total_witness :
  exists mid sid c n eid,
    In (Log_info_running mid sid c n eid) (trace (cattle_run iona false)) /\
    n = 10%nat /\ sid = "BosTau".
Proof.
  assert (Hin : exists mid sid c n eid,
            In (Log_info_running mid sid c n eid) (trace (cattle_run iona false)))
    by (do 5 eexists; vm_compute; find_event).
  destruct Hin as (mid & sid & c & n & eid & Hin).
  destruct (info_line_reports_total unit own_citation "stdpopsim" [msprime_engine]
              cattle (parsed iona false) mid sid eid c n Hin)
    as (Hn & Hsid & _).
  exists mid, sid, c, n, eid. split; [exact Hin |].
  split; [rewrite Hn; reflexivity | rewrite Hsid; reflexivity].
Defined.

Lemma BosTau_chromosomes_parsed :
  BosTau._chromosomes = Ok (chromosomes (genome cattle)).
Proof. vm_compute. reflexivity. Qed.

Lemma BosTau_model_built :
  exists m, BosTau._inferred_1_M_13 = Ok m /\
            add_demographic_model m (BosTau._species (chromosomes (genome cattle)))
            = cattle.
Proof. eexists. split; vm_compute; reflexivity. Qed.

Lemma update_registered_other sid f reg :
  existsb (has_id sid) reg = false -> update_registered sid f reg = reg.
Proof.
  unfold update_registered.
  induction reg as [|sp reg IH]; intros H; [reflexivity |].
  cbn [existsb] in H. apply orb_false_iff in H as [Hsp Hreg].
  cbn [map]. rewrite Hsp, (IH Hreg). reflexivity.
Qed.

Lemma find_has_id_new sid (reg : Registry) sp :
  existsb (has_id sid) reg = false -> has_id sid sp = true ->
  find (has_id sid) (reg ++ [sp]) = Some sp.
Proof.
  intros Hreg Hsp. induction reg as [|x reg IH]; cbn [app find].
  - rewrite Hsp. reflexivity.
  - cbn [existsb] in Hreg. apply orb_false_iff in Hreg as [Hx Hreg].
    rewrite Hx. exact (IH Hreg).
Qed.

Lemma find_has_id_other sid (reg : Registry) sp :
  has_id sid sp = false ->
  find (has_id sid) (reg ++ [sp]) = find (has_id sid) reg.
Proof.
  intros Hsp. induction reg as [|x reg IH]; cbn [app find].
  - rewrite Hsp. reflexivity.
  - destruct (has_id sid x); [reflexivity | exact IH].
Qed.

(** X17: the BosTau catalog module parses its 30 chromosomes, builds its
    species without a model and its one demographic model; loading it into
    a registry fails with DuplicateIdError exactly when a species with the
    id "BosTau" is registered already; otherwise the registry gets, at its
    end, the species with the model that is added after the registration,
    so that a lookup of "BosTau" gives the species with this model and the
    lookup of another id gives what it gave before. *)
Theorem BosTau_load_appends (reg : Registry) :
  exists chroms m,
    BosTau._chromosomes = Ok chroms /\
    length chroms = 30%nat /\
    BosTau._inferred_1_M_13 = Ok m /\
    dm_id m = "IonaInferredDemography" /\
    demographic_models (BosTau._species chroms) = [] /\
    demographic_models (add_demographic_model m (BosTau._species chroms)) = [m] /\
    BosTau.load reg
    = (if existsb (has_id "BosTau") reg then Raise (DuplicateIdError "BosTau")
       else Ok (reg ++ [add_demographic_model m (BosTau._species chroms)])) /\
    (existsb (has_id "BosTau") reg = false ->
     get_species "BosTau" (reg ++ [add_demographic_model m (BosTau._species chroms)])
     = Ok (add_demographic_model m (BosTau._species chroms)) /\
     get_demographic_model (add_demographic_model m (BosTau._species chroms))
       "IonaInferredDemography" = Ok m /\
     forall sid, sid <> "BosTau" ->
       get_species sid (reg ++ [add_demographic_model m (BosTau._species chroms)])
       = get_species sid reg).
Proof.
  destruct BosTau_model_built as (m & Hm & _).
  exists (chromosomes (genome cattle)), m.
  split; [exact BosTau_chromosomes_parsed |].
  split; [vm_compute; reflexivity |].
  split; [exact Hm |].
  assert (Hid : dm_id m = "IonaInferredDemography").
  { assert (H : Ok m = BosTau._inferred_1_M_13) by (symmetry; exact Hm).
    vm_compute in H. injection H as ->. reflexivity. }
  split; [exact Hid |].
  split; [reflexivity |]. split; [reflexivity |].
  split.
  { unfold BosTau.load. rewrite BosTau_chromosomes_parsed. cbn [rbind].
    unfold register_species.
    change (sp_id (BosTau._species (chromosomes (genome cattle)))) with "BosTau".
    destruct (existsb (has_id "BosTau") reg) eqn:Hdup; [reflexivity |].
    cbn [rbind]. rewrite Hm. cbn [rbind].
    f_equal. unfold update_registered. rewrite map_app.
    fold (update_registered "BosTau" (add_demographic_model m) reg).
    rewrite (update_registered_other _ _ _ Hdup). reflexivity. }
  intros Hdup. split.
  { unfold get_species. rewrite (find_has_id_new _ _ _ Hdup); reflexivity. }
  split.
  { unfold get_demographic_model, add_demographic_model.
    cbn [demographic_models BosTau._species app find].
    rewrite Hid. reflexivity. }
  intros sid Hsid. unfold get_species. rewrite find_has_id_other; [reflexivity |].
  unfold has_id. apply String.eqb_neq. cbn [sp_id add_demographic_model BosTau._species].
  intros H. apply Hsid. symmetry. exact H.
Qed.
